(** * build_bus_regions: bus-to-region assignment (scripts/build_bus_regions.py)

    A shallow embedding of the script: the administrative-region assigner
    [get_nuts_shape] with its two closures [locate_bus] and [get_id], the
    per-country driver loop, [pd.concat] of the two accumulators and
    [save_to_geojson].

    Data are modelled as the script has them: coordinates and areas are
    binary64 floats, a pandas frame is the list of its rows in order, a
    GeoSeries is the list of its (label, geometry) entries in order, the two
    country-indexed shape collections are finite maps from the country code,
    and a Python exception is the [Raise] case of an error monad; the steps
    that touch files run in a state-and-error monad over the file system.
    A selection without rows is the empty list and the frame built from it
    has no rows.  The external collaborators (shapely's predicates, the
    Voronoi routine, the schema inference and the GeoJSON driver) are
    parameters; [print] is left out. *)

From Stdlib Require Import Floats.PrimFloat ZArith.
From stdpp Require Import base option list gmap strings.

Open Scope string_scope.
Open Scope list_scope.

(** ** Exceptions and the error monad *)

(** The exception classes the script can meet: a label missing from an index
    ([KeyError]), [ValueError] (raised by [.item()] on a selection whose size
    is not one, by the frame constructor on columns of different lengths and
    by [pd.concat] on an empty list) and [OSError] for the file driver. *)
Inductive exn : Type :=
  | KeyError (label : string)
  | ValueError
  | OSError.

Inductive result (A : Type) : Type :=
  | Ok (a : A)
  | Raise (e : exn).
Arguments Ok {A} a.
Arguments Raise {A} e.

#[global] Instance result_ret : MRet result := @Ok.
#[global] Instance result_bind : MBind result := λ A B f m,
  match m with
  | Ok a => f a
  | Raise e => Raise e
  end.
#[global] Instance result_fmap : FMap result := λ A B f m,
  match m with
  | Ok a => Ok (f a)
  | Raise e => Raise e
  end.

Definition is_ValueError (e : exn) : bool :=
  match e with
  | ValueError => true
  | KeyError _ | OSError => false
  end.

(** [try: body except ValueError: handler]: the handler runs only for a
    [ValueError]; what the handler raises leaves the statement. *)
Definition try_except_ValueError {A} (body handler : result A) : result A :=
  match body with
  | Ok a => Ok a
  | Raise e => if is_ValueError e then handler else Raise e
  end.

(** [apply(f, axis=1)]: [f] on every row, in order, stopping at the first
    exception. *)
Fixpoint apply_rows {A B} (f : A → result B) (rows : list A) : result (list B) :=
  match rows with
  | [] => Ok []
  | r :: rows' =>
      b ← f r;
      bs ← apply_rows f rows';
      mret (b :: bs)
  end.

(** ** Points, buses, shapes *)

(** [shapely.geometry.Point(x, y)]. *)
Record Point : Type := mkPoint { px : float; py : float }.

(** The fixed probe point [Point(9.5, 40)] of the [except] branches. *)
Definition probe : Point := mkPoint 9.5%float 40%float.

(** The area threshold [1e-2] of the offshore filter (the binary64 nearest
    to 0.01, as Python reads the literal). *)
Definition min_area : float := 0x1.47ae147ae147bp-7%float.

Module Bus.
(** A row of [n.buses]: the index label and the columns the script reads. *)
Record t : Type := mk
    { name : string;
      x : float;
      y : float;
      country : string;
      substation_lv : bool;
      substation_off : bool }.
End Bus.

Module Loc.
(** A row of [n.buses.loc[mask, ["x", "y"]]]: index label, [x], [y]. *)
Record t : Type := mk { name : string; x : float; y : float }.
End Loc.

(** What the script asks of a shapely geometry. *)
Class Geometry (geometry : Type) : Type :=
  { contains : geometry → Point → bool;
    area : geometry → float }.

(** Value of a [shape_id] cell: the index label of an administrative
    polygon, Python's [None], the integer sentinel, or a bus name. *)
Inductive ShapeId (Id : Type) : Type :=
  | SidLabel (i : Id)
  | SidNone
  | SidInt (z : Z)
  | SidName (s : string).
Arguments SidLabel {Id} i.
Arguments SidNone {Id}.
Arguments SidInt {Id} z.
Arguments SidName {Id} s.

Module Region.
(** An output row. [geometry] is [None] where the column holds Python's
    [None]. *)
Record t (geometry Id : Type) : Type := mk
    { name : string;
      x : float;
      y : float;
      geometry : option geometry;
      country : string;
      shape_id : ShapeId Id }.
Arguments mk {geometry Id}.
Arguments name {geometry Id}.
Arguments x {geometry Id}.
Arguments y {geometry Id}.
Arguments geometry {geometry Id}.
Arguments country {geometry Id}.
Arguments shape_id {geometry Id}.
End Region.

(** A column given to the frame constructor: a scalar (broadcast over the
    rows) or an array (one cell per row). *)
Inductive Column (A : Type) : Type :=
  | Scalar (a : A)
  | Array (cells : list A).
Arguments Scalar {A} a.
Arguments Array {A} cells.

(** A value of a schema dictionary: a geometry type name or the ordered
    property table. *)
Inductive SchemaValue : Type :=
  | GeomType (s : string)
  | Properties (props : list (string * string)).

(** ** The script *)

Section BuildBusRegions.

Context {geometry Id : Type} `{!Geometry geometry}.

(** The external Voronoi routine: [points], [outline] to an array of
    polygons, or an exception. *)
Variable voronoi_partition_pts : list (float * float) → geometry → result (list geometry).

(** What a file holds, the schema inference of [gpd.io.file] and the GeoJSON
    driver behind [to_file]: frame, schema and what is at the path when the
    driver opens it ([None] when nothing is) to the file it leaves there.
    Both may raise. *)
Variable file : Type.
Variable infer_schema : list (Region.t geometry Id) → result (gmap string SchemaValue).
Variable to_file :
  list (Region.t geometry Id) → gmap string SchemaValue → option file → result file.

(** *** get_nuts_shape *)

(** [nuts_shapes[nuts_shapes.contains(pt)]]: the entries whose geometry
    contains [pt], in the order of the series. *)
Definition selection (nuts_shapes : list (Id * geometry)) (pt : Point) : list (Id * geometry) :=
  filter (λ e, contains e.2 pt = true) nuts_shapes.

(** [.item()]: the only element of an array of size one, [ValueError]
    otherwise. *)
Definition item {A} (values : list A) : result A :=
  match values with
  | [a] => Ok a
  | _ => Raise ValueError
  end.

Definition coords_point (coords : Loc.t) : Point :=
  mkPoint (Loc.x coords) (Loc.y coords).

(** The [except] branch evaluates the probe selection's [.item()] and drops
    its value: the function falls off its end and returns [None]. *)
Definition locate_bus (nuts_shapes : list (Id * geometry)) (coords : Loc.t)
  : result (option geometry) :=
  try_except_ValueError
    (g ← item ((selection nuts_shapes (coords_point coords)).*2); mret (Some g))
    (_ ← item ((selection nuts_shapes probe).*2); mret None).

Definition get_id (nuts_shapes : list (Id * geometry)) (coords : Loc.t)
  : result (option Id) :=
  try_except_ValueError
    (i ← item ((selection nuts_shapes (coords_point coords)).*1); mret (Some i))
    (_ ← item ((selection nuts_shapes probe).*1); mret None).

Definition get_nuts_shape (onshore_locs : list Loc.t) (nuts_shapes : list (Id * geometry))
  : result (list (option geometry) * list (option Id)) :=
  regions ← apply_rows (locate_bus nuts_shapes) onshore_locs;
  ids ← apply_rows (get_id nuts_shapes) onshore_locs;
  mret (regions, ids).

(** *** Frames *)

(** The cells of a column in a frame of [n] rows; an array of another
    length is a [ValueError]. *)
Definition column_cells {A} (n : nat) (c : Column A) : result (list A) :=
  match c with
  | Scalar a => Ok (replicate n a)
  | Array cells => if decide (length cells = n) then Ok cells else Raise ValueError
  end.

(** The rows of a frame from its columns, cell by cell. *)
Definition frame_rows (locs : list Loc.t) (geo : list (option geometry))
    (country : string) (sid : list (ShapeId Id)) : list (Region.t geometry Id) :=
  zip_with (λ lg s, Region.mk (Loc.name lg.1) (Loc.x lg.1) (Loc.y lg.1) lg.2 country s)
    (zip locs geo) sid.

(** [gpd.GeoDataFrame({'name': locs.index, 'x': locs['x'], 'y': locs['y'],
    'geometry': ..., 'country': country, 'shape_id': ...})]. *)
Definition GeoDataFrame (locs : list Loc.t) (geometry_col : list (option geometry))
    (country : string) (shape_id : Column (ShapeId Id))
  : result (list (Region.t geometry Id)) :=
  geo ← column_cells (length locs) (Array geometry_col);
  sid ← column_cells (length locs) shape_id;
  mret (frame_rows locs geo country sid).

(** The index label and the coordinates of an output row. *)
Definition row_loc (r : Region.t geometry Id) : Loc.t :=
  Loc.mk (Region.name r) (Region.x r) (Region.y r).

(** [gdf.area] of a row; a missing geometry has area NaN. *)
Definition row_area (r : Region.t geometry Id) : float :=
  match Region.geometry r with
  | Some g => area g
  | None => nan
  end.

(** [pd.concat(frames, ignore_index=True)]: the rows of the frames in order;
    an empty list of frames is a [ValueError]. *)
Definition pd_concat {A} (frames : list (list A)) : result (list A) :=
  match frames with
  | [] => Raise ValueError
  | _ => Ok (mjoin frames)
  end.

(** *** Inputs *)

Record Inputs : Type := mkInputs
  { countries : list string;
    nuts_clustering : bool;
    buses : list Bus.t;
    country_shapes : gmap string geometry;
    offshore_shapes : gmap string geometry;
    nuts_shapes : list (Id * geometry);
    regions_onshore : string;
    regions_offshore : string }.

(** [series[label]] on a label-indexed series. *)
Definition getitem (series : gmap string geometry) (label : string) : result geometry :=
  match series !! label with
  | Some g => Ok g
  | None => Raise (KeyError label)
  end.

Definition loc_xy (b : Bus.t) : Loc.t := Loc.mk (Bus.name b) (Bus.x b) (Bus.y b).

(** [n.buses.loc[c_b & n.buses.substation_lv, ["x", "y"]]]. *)
Definition onshore_locs (buses : list Bus.t) (country : string) : list Loc.t :=
  loc_xy <$> filter (λ b, Bus.country b = country ∧ Bus.substation_lv b = true) buses.

(** [n.buses.loc[c_b & n.buses.substation_off, ["x", "y"]]]. *)
Definition offshore_locs (buses : list Bus.t) (country : string) : list Loc.t :=
  loc_xy <$> filter (λ b, Bus.country b = country ∧ Bus.substation_off b = true) buses.

(** [locs.values]. *)
Definition values (locs : list Loc.t) : list (float * float) :=
  (λ l, (Loc.x l, Loc.y l)) <$> locs.

Definition sid_of_id (i : option Id) : ShapeId Id :=
  match i with
  | Some i => SidLabel i
  | None => SidNone
  end.

(** *** The country loop *)

(** Lines 113-120: geometry and [shape_id] columns of the onshore frame. *)
Definition assign_onshore (inp : Inputs) (locs : list Loc.t) (onshore_shape : geometry)
  : result (list (option geometry) * Column (ShapeId Id)) :=
  if nuts_clustering inp then
    first_call ← get_nuts_shape locs (nuts_shapes inp);
    let onshore_geo := first_call.1 in
    second_call ← get_nuts_shape locs (nuts_shapes inp);
    let shape_id : list (option Id) := second_call.2 in
    mret (onshore_geo, Array (sid_of_id <$> shape_id))
  else
    onshore_geo ← voronoi_partition_pts (values locs) onshore_shape;
    let shape_id := SidInt (-1) in
    mret (Some <$> (onshore_geo : list geometry), Scalar shape_id).

(** Lines 110-130: the onshore frame of one country. *)
Definition onshore_frame (inp : Inputs) (country : string)
  : result (list (Region.t geometry Id)) :=
  onshore_shape ← getitem (country_shapes inp) country;
  let locs := onshore_locs (buses inp) country in
  geo_id ← assign_onshore inp locs onshore_shape;
  GeoDataFrame locs geo_id.1 country geo_id.2.

(** Lines 133-144: the offshore frame of one country with an offshore
    shape. *)
Definition offshore_frame (inp : Inputs) (country : string) (offshore_shape : geometry)
  : result (list (Region.t geometry Id)) :=
  let locs := offshore_locs (buses inp) country in
  cells ← voronoi_partition_pts (values locs) offshore_shape;
  offshore_regions_c ← GeoDataFrame locs (Some <$> cells) country
                         (Array (SidName <$> (Loc.name <$> locs)));
  mret (filter (λ r, (min_area <? row_area r)%float = true) offshore_regions_c).

(** One iteration of [for country in countries] on the two accumulators. *)
Definition country_body (inp : Inputs)
    (acc : list (list (Region.t geometry Id)) * list (list (Region.t geometry Id)))
    (country : string)
  : result (list (list (Region.t geometry Id)) * list (list (Region.t geometry Id))) :=
  onshore_c ← onshore_frame inp country;
  let onshore_regions := acc.1 ++ [onshore_c] in
  match offshore_shapes inp !! country with
  | None => mret (onshore_regions, acc.2)
  | Some offshore_shape =>
      offshore_c ← offshore_frame inp country offshore_shape;
      mret (onshore_regions, acc.2 ++ [offshore_c])
  end.

Fixpoint for_countries (inp : Inputs) (cs : list string)
    (acc : list (list (Region.t geometry Id)) * list (list (Region.t geometry Id)))
  : result (list (list (Region.t geometry Id)) * list (list (Region.t geometry Id))) :=
  match cs with
  | [] => Ok acc
  | country :: cs' =>
      acc' ← country_body inp acc country;
      for_countries inp cs' acc'
  end.

Definition country_loop (inp : Inputs)
  : result (list (list (Region.t geometry Id)) * list (list (Region.t geometry Id))) :=
  for_countries inp (countries inp) ([], []).

(** The two concatenated output collections. *)
Definition onshore_output (inp : Inputs) : result (list (Region.t geometry Id)) :=
  acc ← country_loop inp;
  pd_concat acc.1.

Definition offshore_output (inp : Inputs) : result (list (Region.t geometry Id)) :=
  acc ← country_loop inp;
  pd_concat acc.2.

(** *** The single-call variant

    The driver with the two [get_nuts_shape] calls of lines 114-115 collapsed
    into one call whose first component is the geometry column and whose
    second is the id column; everything else as above. *)

Definition assign_onshore_single_call (inp : Inputs) (locs : list Loc.t)
    (onshore_shape : geometry)
  : result (list (option geometry) * Column (ShapeId Id)) :=
  if nuts_clustering inp then
    geo_ids ← get_nuts_shape locs (nuts_shapes inp);
    mret (geo_ids.1, Array (sid_of_id <$> (geo_ids.2 : list (option Id))))
  else
    onshore_geo ← voronoi_partition_pts (values locs) onshore_shape;
    let shape_id := SidInt (-1) in
    mret (Some <$> (onshore_geo : list geometry), Scalar shape_id).

Definition onshore_frame_single_call (inp : Inputs) (country : string)
  : result (list (Region.t geometry Id)) :=
  onshore_shape ← getitem (country_shapes inp) country;
  let locs := onshore_locs (buses inp) country in
  geo_id ← assign_onshore_single_call inp locs onshore_shape;
  GeoDataFrame locs geo_id.1 country geo_id.2.

Definition country_body_single_call (inp : Inputs)
    (acc : list (list (Region.t geometry Id)) * list (list (Region.t geometry Id)))
    (country : string)
  : result (list (list (Region.t geometry Id)) * list (list (Region.t geometry Id))) :=
  onshore_c ← onshore_frame_single_call inp country;
  let onshore_regions := acc.1 ++ [onshore_c] in
  match offshore_shapes inp !! country with
  | None => mret (onshore_regions, acc.2)
  | Some offshore_shape =>
      offshore_c ← offshore_frame inp country offshore_shape;
      mret (onshore_regions, acc.2 ++ [offshore_c])
  end.

Fixpoint for_countries_single_call (inp : Inputs) (cs : list string)
    (acc : list (list (Region.t geometry Id)) * list (list (Region.t geometry Id)))
  : result (list (list (Region.t geometry Id)) * list (list (Region.t geometry Id))) :=
  match cs with
  | [] => Ok acc
  | country :: cs' =>
      acc' ← country_body_single_call inp acc country;
      for_countries_single_call inp cs' acc'
  end.

Definition onshore_output_single_call (inp : Inputs)
  : result (list (Region.t geometry Id)) :=
  acc ← for_countries_single_call inp (countries inp) ([], []);
  pd_concat acc.1.

(** *** Writing the outputs *)

(** A step of the script that touches files: from the files before it to the
    files after it and a value or an exception. *)
Definition IO (A : Type) : Type := gmap string file → gmap string file * result A.

#[global] Instance IO_ret : MRet IO := λ A a fs, (fs, Ok a).
#[global] Instance IO_bind : MBind IO := λ A B k m fs,
  match m fs with
  | (fs', Ok a) => k a fs'
  | (fs', Raise e) => (fs', Raise e)
  end.

(** A step that touches no file. *)
Definition pure {A} (m : result A) : IO A := λ fs, (fs, m).

(** [os.path.exists(fn)]. *)
Definition path_exists (fn : string) : IO bool :=
  λ fs, (fs, Ok (bool_decide (is_Some (fs !! fn)))).

(** [os.unlink(fn)]; removing a missing file is an [OSError]. *)
Definition unlink (fn : string) : IO () :=
  λ fs, if decide (is_Some (fs !! fn)) then (delete fn fs, Ok ()) else (fs, Raise OSError).

(** [s.to_file(fn, driver='GeoJSON', schema=schema)]. *)
Definition GeoDataFrame_to_file (s : list (Region.t geometry Id)) (fn : string)
    (schema : gmap string SchemaValue) : IO () :=
  λ fs, match to_file s schema (fs !! fn) with
        | Ok f => (<[fn := f]> fs, Ok ())
        | Raise e => (fs, Raise e)
        end.

Definition save_to_geojson (s : list (Region.t geometry Id)) (fn : string) : IO () :=
  present ← path_exists fn;
  (if present : bool then unlink fn else mret ());;
  inferred ← pure (infer_schema s);
  let schema := <["geometry" := GeomType "Unknown"]> inferred in
  GeoDataFrame_to_file s fn schema.

(** The script body from the country loop on. *)
Definition main (inp : Inputs) : IO () :=
  acc ← pure (country_loop inp);
  onshore ← pure (pd_concat acc.1);
  save_to_geojson onshore (regions_onshore inp);;
  offshore ← pure (pd_concat acc.2);
  save_to_geojson offshore (regions_offshore inp).

End BuildBusRegions.

(** ** Vocabulary of the properties *)

(** [r] is a row for bus [b]: same name, same coordinates. *)
Definition row_of_bus {geometry Id : Type} (b : Bus.t) (r : Region.t geometry Id) : Prop :=
  Region.name r = Bus.name b ∧ Region.x r = Bus.x b ∧ Region.y r = Bus.y b.

(** Exactly one position of [rows] holds an element with property [P]. *)
Definition exactly_one {A} (P : A → Prop) (rows : list A) : Prop :=
  ∃ i a, rows !! i = Some a ∧ P a ∧ ∀ j a', rows !! j = Some a' → P a' → j = i.

(** ** A concrete instance for the examples *)

(** An axis-aligned open box, the concrete geometry of the examples. *)
Record Box : Type := mkBox { xmin : float; ymin : float; xmax : float; ymax : float }.

Definition Box_contains (b : Box) (p : Point) : bool :=
  (xmin b <? px p)%float && (px p <? xmax b)%float &&
  (ymin b <? py p)%float && (py p <? ymax b)%float.

Definition Box_area (b : Box) : float :=
  ((xmax b - xmin b) * (ymax b - ymin b))%float.

#[global] Instance Box_Geometry : Geometry Box :=
  {| contains := Box_contains; area := Box_area |}.


(** ** Example data

    Boxes for polygons, a Voronoi routine that gives every point the whole
    outline (what the routine returns for a single point), and a driver that
    appends to a file it finds at the path. *)

Definition whole_outline_cells (points : list (float * float)) (outline : Box)
  : result (list Box) :=
  Ok (replicate (length points) outline).

Definition polygon_schema : gmap string SchemaValue :=
  {[ "geometry" := GeomType "Polygon"; "properties" := Properties [("name", "str")] ]}.

Definition infer_polygon_schema (s : list (Region.t Box string))
  : result (gmap string SchemaValue) :=
  Ok polygon_schema.

Definition appending_driver (s : list (Region.t Box string))
    (schema : gmap string SchemaValue)
    (present : option (gmap string SchemaValue * list (Region.t Box string)))
  : result (gmap string SchemaValue * list (Region.t Box string)) :=
  match present with
  | None => Ok (schema, s)
  | Some (_, rows) => Ok (schema, rows ++ s)
  end.

Definition box_A : Box := mkBox 0 0 10 10.
Definition box_B : Box := mkBox 5 5 15 15.
Definition box_IT : Box := mkBox 9 39 10 41.

(** Two overlapping polygons and the one polygon around the probe point. *)
Definition nuts_example : list (string * Box) :=
  [("A", box_A); ("B", box_B); ("IT", box_IT)].

(** The same without the polygon around the probe point. *)
Definition nuts_without_probe : list (string * Box) :=
  [("A", box_A); ("B", box_B)].

Definition in_A_only : Loc.t := Loc.mk "b1" 1 1.
Definition in_A_and_B : Loc.t := Loc.mk "b2" 7 7.
Definition in_no_polygon : Loc.t := Loc.mk "b3" 100 100.

Definition bus1 : Bus.t := Bus.mk "b1" 1 1 "DE" true false.
Definition bus2 : Bus.t := Bus.mk "b2" 7 7 "DE" true true.
Definition bus3 : Bus.t := Bus.mk "b3" 100 100 "FR" true true.

Definition land_DE : Box := mkBox 0 0 20 20.
Definition land_FR : Box := mkBox 90 90 120 120.
Definition sea_DE : Box := mkBox 20 0 30 10.
(** An offshore outline of area 1/256, below the threshold. *)
Definition sea_FR : Box := mkBox 120 90 120.0625 90.0625.

(** Three buses in two countries, both with an onshore and an offshore
    shape. *)
Definition inputs_example (nuts : bool) : @Inputs Box string :=
  {| countries := ["DE"; "FR"];
     nuts_clustering := nuts;
     buses := [bus1; bus2; bus3];
     country_shapes := {[ "DE" := land_DE; "FR" := land_FR ]};
     offshore_shapes := {[ "DE" := sea_DE; "FR" := sea_FR ]};
     nuts_shapes := nuts_example;
     regions_onshore := "resources/regions_onshore.geojson";
     regions_offshore := "resources/regions_offshore.geojson" |}.

(** The same with "DE" listed twice. *)
Definition inputs_repeated_country : @Inputs Box string :=
  {| countries := ["DE"; "DE"];
     nuts_clustering := true;
     buses := [bus1; bus2; bus3];
     country_shapes := {[ "DE" := land_DE; "FR" := land_FR ]};
     offshore_shapes := {[ "DE" := sea_DE; "FR" := sea_FR ]};
     nuts_shapes := nuts_example;
     regions_onshore := "resources/regions_onshore.geojson";
     regions_offshore := "resources/regions_offshore.geojson" |}.

(** "XX" is listed and has an onshore shape, but no bus has that country
    code. *)
Definition inputs_country_without_buses : @Inputs Box string :=
  {| countries := ["DE"; "XX"];
     nuts_clustering := true;
     buses := [bus1; bus2; bus3];
     country_shapes := {[ "DE" := land_DE; "XX" := land_FR ]};
     offshore_shapes := {[ "DE" := sea_DE ]};
     nuts_shapes := nuts_example;
     regions_onshore := "resources/regions_onshore.geojson";
     regions_offshore := "resources/regions_offshore.geojson" |}.

(** "XX" is listed but has no onshore shape. *)
Definition inputs_country_without_shape : @Inputs Box string :=
  {| countries := ["DE"; "XX"];
     nuts_clustering := true;
     buses := [bus1; bus2; bus3];
     country_shapes := {[ "DE" := land_DE ]};
     offshore_shapes := {[ "DE" := sea_DE ]};
     nuts_shapes := nuts_example;
     regions_onshore := "resources/regions_onshore.geojson";
     regions_offshore := "resources/regions_offshore.geojson" |}.

(** The polygons of [nuts_example] in another order. *)
Definition nuts_reordered : list (string * Box) :=
  [("IT", box_IT); ("B", box_B); ("A", box_A)].

(** Voronoi mode, one listed country, no offshore shape at all. *)
Definition inputs_without_offshore : @Inputs Box string :=
  {| countries := ["DE"];
     nuts_clustering := false;
     buses := [bus1; bus2; bus3];
     country_shapes := {[ "DE" := land_DE ]};
     offshore_shapes := ∅;
     nuts_shapes := nuts_example;
     regions_onshore := "resources/regions_onshore.geojson";
     regions_offshore := "resources/regions_offshore.geojson" |}.

(** The offshore row of the second bus of "DE". *)
Definition offshore_row_DE : Region.t Box string :=
  Region.mk "b2" 7 7 (Some sea_DE) "DE" (SidName "b2").

Definition old_rows : list (Region.t Box string) :=
  [Region.mk "stale" 0 0 (Some box_A) "DE" (SidInt (-1))].

Definition new_rows : list (Region.t Box string) :=
  [Region.mk "b1" 1 1 (Some land_DE) "DE" (SidInt (-1))].

(** ** Properties *)

Section Properties.

Context {geometry Id : Type} `{!Geometry geometry}.
Variable voronoi_partition_pts : list (float * float) → geometry → result (list geometry).
Variable file : Type.
Variable infer_schema : list (Region.t geometry Id) → result (gmap string SchemaValue).
Variable to_file :
  list (Region.t geometry Id) → gmap string SchemaValue → option file → result file.

Implicit Types (shapes : list (Id * geometry)) (coords l : Loc.t) (b : Bus.t).
Implicit Types (inp : @Inputs geometry Id) (country c : string).
Implicit Types (df : list (Region.t geometry Id)) (r : Region.t geometry Id).

(** *** The error monad *)

Lemma bind_Ok_inv {A B} (m : result A) (k : A → result B) (y : B) :
  m ≫= k = Ok y → ∃ a, m = Ok a ∧ k a = Ok y.
Proof. destruct m as [a|e]; [eauto | discriminate]. Qed.

Lemma fmap_Ok_inv {A B} (f : A → B) (m : result A) (y : B) :
  f <$> m = Ok y → ∃ a, m = Ok a ∧ y = f a.
Proof. destruct m as [a|e]; [ | discriminate]. intros [= <-]. eauto. Qed.

Ltac inv_bind H :=
  let a := fresh "a" in
  let Ha := fresh "Ha" in
  apply bind_Ok_inv in H as (a & Ha & H).

Lemma apply_rows_Ok_inv {A B} (f : A → result B) (rows : list A) (bs : list B) :
  apply_rows f rows = Ok bs → Forall2 (λ a v, f a = Ok v) rows bs.
Proof.
  revert bs. induction rows as [|a rows IH]; intros bs Hrun; simpl in Hrun.
  - injection Hrun as <-. constructor.
  - inv_bind Hrun. inv_bind Hrun. injection Hrun as <-.
    constructor; [assumption | by apply IH].
Qed.

Lemma apply_rows_total {A B} (f : A → result B) (rows : list A) :
  (∀ a, a ∈ rows → ∃ v, f a = Ok v) → ∃ bs, apply_rows f rows = Ok bs.
Proof.
  induction rows as [|a rows IH]; intros Hall; simpl.
  - by eexists.
  - destruct (Hall a) as [v Hb]; [left | ].
    destruct IH as [bs Hbs]; [intros a' Ha'; apply Hall; by right | ].
    rewrite Hb, Hbs. by eexists.
Qed.

(** *** The assigner *)

Lemma item_not_single {A} (values : list A) :
  length values ≠ 1 → item values = Raise ValueError.
Proof. destruct values as [|a [|a' values]]; simpl; [done | done | done]. Qed.

Lemma item_single {A} (values : list A) (a : A) : values = [a] → item values = Ok a.
Proof. by intros ->. Qed.

(** A failed lookup leaves [locate_bus] with its [except] branch. *)
Lemma locate_bus_except shapes coords :
  length (selection shapes (coords_point coords)) ≠ 1 →
  locate_bus shapes coords = (_ ← item ((selection shapes probe).*2); mret None).
Proof.
  intros Hmiss. unfold locate_bus.
  rewrite item_not_single by (by rewrite length_fmap). reflexivity.
Qed.

Lemma get_id_except shapes coords :
  length (selection shapes (coords_point coords)) ≠ 1 →
  get_id shapes coords = (_ ← item ((selection shapes probe).*1); mret None).
Proof.
  intros Hmiss. unfold get_id.
  rewrite item_not_single by (by rewrite length_fmap). reflexivity.
Qed.

Lemma locate_bus_found shapes coords (e : Id * geometry) :
  selection shapes (coords_point coords) = [e] → locate_bus shapes coords = Ok (Some e.2).
Proof. intros Hsel. unfold locate_bus. by rewrite Hsel. Qed.

Lemma get_id_found shapes coords (e : Id * geometry) :
  selection shapes (coords_point coords) = [e] → get_id shapes coords = Ok (Some e.1).
Proof. intros Hsel. unfold get_id. by rewrite Hsel. Qed.

(** With the probe point in exactly one polygon neither closure raises. *)
Lemma locate_bus_total shapes coords (e : Id * geometry) :
  selection shapes probe = [e] → ∃ g, locate_bus shapes coords = Ok g.
Proof.
  intros Hprobe.
  destruct (decide (length (selection shapes (coords_point coords)) = 1)) as [Hone|Hmiss].
  - destruct (selection shapes (coords_point coords)) as [|e' [|? ?]] eqn:Hsel;
      try discriminate.
    exists (Some e'.2). by apply locate_bus_found.
  - exists None. rewrite locate_bus_except by done. by rewrite Hprobe.
Qed.

Lemma get_id_total shapes coords (e : Id * geometry) :
  selection shapes probe = [e] → ∃ i, get_id shapes coords = Ok i.
Proof.
  intros Hprobe.
  destruct (decide (length (selection shapes (coords_point coords)) = 1)) as [Hone|Hmiss].
  - destruct (selection shapes (coords_point coords)) as [|e' [|? ?]] eqn:Hsel;
      try discriminate.
    exists (Some e'.1). by apply get_id_found.
  - exists None. rewrite get_id_except by done. by rewrite Hprobe.
Qed.

Lemma get_nuts_shape_total shapes (locs : list Loc.t) (e : Id * geometry) :
  selection shapes probe = [e] → ∃ regions ids, get_nuts_shape locs shapes = Ok (regions, ids).
Proof.
  intros Hprobe. unfold get_nuts_shape.
  destruct (apply_rows_total (locate_bus shapes) locs) as [regions ->].
  { intros a _. by eapply locate_bus_total. }
  destruct (apply_rows_total (get_id shapes) locs) as [ids ->].
  { intros a _. by eapply get_id_total. }
  by do 2 eexists.
Qed.

Lemma get_nuts_shape_Ok_inv shapes (locs : list Loc.t) regions ids :
  get_nuts_shape locs shapes = Ok (regions, ids) →
  Forall2 (λ l g, locate_bus shapes l = Ok g) locs regions ∧
  Forall2 (λ l i, get_id shapes l = Ok i) locs ids.
Proof.
  unfold get_nuts_shape. intros Hrun.
  inv_bind Hrun. inv_bind Hrun. injection Hrun as <- <-.
  split; by apply apply_rows_Ok_inv.
Qed.

(** *** Frames *)

Lemma column_cells_length {A} (n : nat) (col : Column A) (cells : list A) :
  column_cells n col = Ok cells → length cells = n.
Proof.
  destruct col as [a|cells']; simpl.
  - intros [= <-]. apply length_replicate.
  - case_decide; [by intros [= <-] | discriminate].
Qed.

Lemma column_cells_lookup {A} (n : nat) (col : Column A) (cells : list A) (i : nat) (a : A) :
  column_cells n col = Ok cells → cells !! i = Some a →
  match col with
  | Scalar a' => a = a'
  | Array cells' => cells' !! i = Some a
  end.
Proof.
  destruct col as [a'|cells']; simpl.
  - intros [= <-] [-> _]%lookup_replicate. reflexivity.
  - case_decide; [by intros [= <-] | discriminate].
Qed.

Lemma frame_rows_lookup (locs : list Loc.t) (geo : list (option geometry)) country
    (sid : list (ShapeId Id)) (i : nat) r :
  frame_rows locs geo country sid !! i = Some r ↔
  ∃ l g s, locs !! i = Some l ∧ geo !! i = Some g ∧ sid !! i = Some s ∧
           r = Region.mk (Loc.name l) (Loc.x l) (Loc.y l) g country s.
Proof.
  unfold frame_rows. rewrite lookup_zip_with_Some. split.
  - intros ([l g] & s & -> & Hlg & Hs).
    apply lookup_zip_with_Some in Hlg as (l' & g' & [= -> ->] & Hl & Hg).
    by exists l', g', s.
  - intros (l & g & s & Hl & Hg & Hs & ->). exists (l, g), s.
    split_and!; [done | | done]. apply lookup_zip_with_Some. by exists l, g.
Qed.

Lemma frame_rows_length (locs : list Loc.t) (geo : list (option geometry)) country
    (sid : list (ShapeId Id)) :
  length geo = length locs → length sid = length locs →
  length (frame_rows locs geo country sid) = length locs.
Proof.
  intros Hgeo Hsid. unfold frame_rows.
  rewrite length_zip_with, length_zip_with. lia.
Qed.

Lemma frame_rows_loc (locs : list Loc.t) (geo : list (option geometry)) country
    (sid : list (ShapeId Id)) :
  length geo = length locs → length sid = length locs →
  row_loc <$> frame_rows locs geo country sid = locs.
Proof.
  intros Hgeo Hsid. apply list_eq. intros i.
  rewrite list_lookup_fmap.
  destruct (locs !! i) as [l|] eqn:Hl.
  - destruct (lookup_lt_is_Some_2 geo i) as [g Hg].
    { rewrite Hgeo. by eapply lookup_lt_Some. }
    destruct (lookup_lt_is_Some_2 sid i) as [s Hs].
    { rewrite Hsid. by eapply lookup_lt_Some. }
    assert (frame_rows locs geo country sid !! i
            = Some (Region.mk (Loc.name l) (Loc.x l) (Loc.y l) g country s)) as ->.
    { apply frame_rows_lookup. exists l, g, s. split_and!; done. }
    simpl. by destruct l.
  - rewrite lookup_ge_None_2; [done | ].
    rewrite frame_rows_length by done. by apply lookup_ge_None.
Qed.

Lemma GeoDataFrame_Ok_inv (locs : list Loc.t) (geo : list (option geometry)) country
    (shape_id : Column (ShapeId Id)) df :
  GeoDataFrame locs geo country shape_id = Ok df →
  length geo = length locs ∧
  ∃ sid, column_cells (length locs) shape_id = Ok sid ∧ length sid = length locs ∧
         df = frame_rows locs geo country sid.
Proof.
  unfold GeoDataFrame. intros Hrun.
  inv_bind Hrun. inv_bind Hrun. injection Hrun as <-.
  pose proof (column_cells_length _ _ _ Ha) as Hlen.
  simpl in Ha. case_decide; [injection Ha as <- | discriminate].
  split; [done | ]. exists a0. split_and!; [done | | done].
  by eapply column_cells_length.
Qed.

Lemma GeoDataFrame_total (locs : list Loc.t) (geo : list (option geometry)) country
    (shape_id : Column (ShapeId Id)) :
  length geo = length locs →
  match shape_id with Scalar _ => True | Array cells => length cells = length locs end →
  ∃ df, GeoDataFrame locs geo country shape_id = Ok df.
Proof.
  intros Hgeo Hsid. unfold GeoDataFrame. simpl.
  rewrite decide_True by done. simpl.
  destruct shape_id as [a|cells]; simpl.
  - by eexists.
  - rewrite decide_True by done. by eexists.
Qed.

(** *** The onshore frame of a country *)

Lemma getitem_Ok_inv (series : gmap string geometry) (label : string) (g : geometry) :
  getitem series label = Ok g → series !! label = Some g.
Proof. unfold getitem. destruct (series !! label); [by intros [= ->] | discriminate]. Qed.

Lemma onshore_frame_Ok_inv inp country df :
  onshore_frame voronoi_partition_pts inp country = Ok df →
  ∃ onshore_shape geo shape_id,
    country_shapes inp !! country = Some onshore_shape ∧
    assign_onshore voronoi_partition_pts inp (onshore_locs (buses inp) country) onshore_shape
      = Ok (geo, shape_id) ∧
    GeoDataFrame (onshore_locs (buses inp) country) geo country shape_id = Ok df.
Proof.
  unfold onshore_frame. intros Hrun.
  inv_bind Hrun. inv_bind Hrun. destruct a0 as [geo shape_id].
  exists a, geo, shape_id. split_and!; [by apply getitem_Ok_inv | done | done].
Qed.

(** The rows of an onshore frame are the selected buses, in order. *)
Lemma onshore_frame_locs inp country df :
  onshore_frame voronoi_partition_pts inp country = Ok df →
  row_loc <$> df = onshore_locs (buses inp) country.
Proof.
  intros (shape & geo & shape_id & _ & _ & Hdf)%onshore_frame_Ok_inv.
  apply GeoDataFrame_Ok_inv in Hdf as (Hgeo & sid & _ & Hsid & ->).
  by apply frame_rows_loc.
Qed.

Lemma assign_onshore_nuts inp (locs : list Loc.t) (onshore_shape : geometry) regions ids :
  nuts_clustering inp = true →
  get_nuts_shape locs (nuts_shapes inp) = Ok (regions, ids) →
  assign_onshore voronoi_partition_pts inp locs onshore_shape
    = Ok (regions, Array (sid_of_id <$> ids)).
Proof. intros Hmode Hcall. unfold assign_onshore. by rewrite Hmode, Hcall. Qed.

Lemma assign_onshore_nuts_inv inp (locs : list Loc.t) (onshore_shape : geometry) geo shape_id :
  nuts_clustering inp = true →
  assign_onshore voronoi_partition_pts inp locs onshore_shape = Ok (geo, shape_id) →
  ∃ ids, get_nuts_shape locs (nuts_shapes inp) = Ok (geo, ids) ∧
         shape_id = Array (sid_of_id <$> ids).
Proof.
  intros Hmode. unfold assign_onshore. rewrite Hmode.
  destruct (get_nuts_shape locs (nuts_shapes inp)) as [[regions ids]|err]; [ | discriminate].
  simpl. intros [= <- <-]. by exists ids.
Qed.

Lemma assign_onshore_voronoi_inv inp (locs : list Loc.t) (onshore_shape : geometry)
    geo shape_id :
  nuts_clustering inp = false →
  assign_onshore voronoi_partition_pts inp locs onshore_shape = Ok (geo, shape_id) →
  ∃ cells, voronoi_partition_pts (values locs) onshore_shape = Ok cells ∧
           geo = Some <$> cells ∧ shape_id = Scalar (SidInt (-1)).
Proof.
  intros Hmode. unfold assign_onshore. rewrite Hmode.
  destruct (voronoi_partition_pts (values locs) onshore_shape) as [cells|err]; [ | discriminate].
  simpl. intros [= <- <-]. by exists cells.
Qed.

(** *** Failed lookups *)

(** C9. In administrative mode, when the probe point [Point(9.5, 40)] lies in
    exactly one polygon, a bus point contained in no polygon or in more than
    one makes [locate_bus] and [get_id] return [None]; the onshore frame of
    the bus's country is then built without an exception and the row of that
    bus carries a null geometry and a null [shape_id]. *)
Theorem failed_lookup_gives_null_row shapes (e : Id * geometry) :
  selection shapes probe = [e] →
  (∀ coords, length (selection shapes (coords_point coords)) ≠ 1 →
     locate_bus shapes coords = Ok None ∧ get_id shapes coords = Ok None) ∧
  (∀ inp country i l,
     nuts_shapes inp = shapes → nuts_clustering inp = true →
     is_Some (country_shapes inp !! country) →
     onshore_locs (buses inp) country !! i = Some l →
     length (selection shapes (coords_point l)) ≠ 1 →
     ∃ df r, onshore_frame voronoi_partition_pts inp country = Ok df ∧
             df !! i = Some r ∧ row_loc r = l ∧
             Region.geometry r = None ∧ Region.shape_id r = SidNone).
Proof.
  intros Hprobe.
  assert (Hnone : ∀ coords, length (selection shapes (coords_point coords)) ≠ 1 →
            locate_bus shapes coords = Ok None ∧ get_id shapes coords = Ok None).
  { intros coords Hmiss.
    rewrite locate_bus_except, get_id_except by done. by rewrite Hprobe. }
  split; [exact Hnone | ].
  intros inp country i l Hshapes Hmode [onshore_shape Hshape] Hl Hmiss.
  set (locs := onshore_locs (buses inp) country) in *.
  destruct (get_nuts_shape_total shapes locs e Hprobe) as (regions & ids & Hcall).
  pose proof (get_nuts_shape_Ok_inv _ _ _ _ Hcall) as [Hregions Hids].
  pose proof (Forall2_length _ _ _ Hregions) as Hlen_regions.
  pose proof (Forall2_length _ _ _ Hids) as Hlen_ids.
  destruct (GeoDataFrame_total locs regions country (Array (sid_of_id <$> ids)))
    as [df Hdf]; [done | by rewrite length_fmap | ].
  exists df, (Region.mk (Loc.name l) (Loc.x l) (Loc.y l) None country SidNone).
  split.
  { unfold onshore_frame, getitem. rewrite Hshape. simpl. fold locs.
    rewrite (assign_onshore_nuts inp locs onshore_shape regions ids Hmode)
      by (by rewrite Hshapes).
    exact Hdf. }
  destruct (Hnone l Hmiss) as [Hgeo Hid].
  destruct (Forall2_lookup_l _ _ _ _ _ Hregions Hl) as (g & Hg & Hlocate).
  destruct (Forall2_lookup_l _ _ _ _ _ Hids Hl) as (i' & Hi' & Hget).
  rewrite Hgeo in Hlocate. injection Hlocate as <-.
  rewrite Hid in Hget. injection Hget as <-.
  apply GeoDataFrame_Ok_inv in Hdf as (_ & sid & Hsid & _ & ->).
  simpl in Hsid. case_decide; [injection Hsid as <- | discriminate].
  split_and!; [ | by destruct l | done | done].
  apply frame_rows_lookup. exists l, None, SidNone.
  split_and!; [done | done | | done].
  rewrite list_lookup_fmap, Hi'. reflexivity.
Qed.

(** C2 (as amended). A bus point contained in more than one polygon is not
    given its first containing polygon: its lookup fails like that of a bus
    point contained in no polygon, so both closures give it the outcome they
    give such a point; and when the probe point is not contained in exactly
    one polygon that outcome is a [ValueError]. *)
Theorem multiple_matches_handled_as_no_match shapes coords :
  1 < length (selection shapes (coords_point coords)) →
  (∀ coords', selection shapes (coords_point coords') = [] →
     locate_bus shapes coords = locate_bus shapes coords' ∧
     get_id shapes coords = get_id shapes coords') ∧
  (length (selection shapes probe) ≠ 1 →
     locate_bus shapes coords = Raise ValueError ∧
     get_id shapes coords = Raise ValueError).
Proof.
  intros Hmany. split.
  - intros coords' Hnone.
    rewrite (locate_bus_except shapes coords), (get_id_except shapes coords) by lia.
    rewrite (locate_bus_except shapes coords'), (get_id_except shapes coords')
      by (by rewrite Hnone).
    done.
  - intros Hprobe.
    rewrite locate_bus_except, get_id_except by lia.
    rewrite !item_not_single by (by rewrite length_fmap). done.
Qed.

(** *** Bus selection *)

Lemma onshore_locs_elem_iff (bus_table : list Bus.t) country l :
  l ∈ onshore_locs bus_table country ↔
  ∃ b, b ∈ bus_table ∧ Bus.country b = country ∧ Bus.substation_lv b = true ∧ l = loc_xy b.
Proof.
  unfold onshore_locs. rewrite list_elem_of_fmap. split.
  - intros (b & -> & [[Hc Hlv] Hb]%list_elem_of_filter). by exists b.
  - intros (b & Hb & Hc & Hlv & ->). exists b. by rewrite list_elem_of_filter.
Qed.

Lemma offshore_locs_elem_iff (bus_table : list Bus.t) country l :
  l ∈ offshore_locs bus_table country ↔
  ∃ b, b ∈ bus_table ∧ Bus.country b = country ∧ Bus.substation_off b = true ∧ l = loc_xy b.
Proof.
  unfold offshore_locs. rewrite list_elem_of_fmap. split.
  - intros (b & -> & [[Hc Hoff] Hb]%list_elem_of_filter). by exists b.
  - intros (b & Hb & Hc & Hoff & ->). exists b. by rewrite list_elem_of_filter.
Qed.

(** C7. For every country the onshore bus selection is exactly the buses
    with that country code and [substation_lv] set, the offshore selection
    exactly those with that country code and [substation_off] set; both keep
    the order of the bus table. *)
Theorem bus_selection_exact (bus_table : list Bus.t) country :
  (∀ l, l ∈ onshore_locs bus_table country ↔
        ∃ b, b ∈ bus_table ∧ Bus.country b = country ∧ Bus.substation_lv b = true ∧
             l = loc_xy b) ∧
  (∀ l, l ∈ offshore_locs bus_table country ↔
        ∃ b, b ∈ bus_table ∧ Bus.country b = country ∧ Bus.substation_off b = true ∧
             l = loc_xy b) ∧
  onshore_locs bus_table country `sublist_of` (loc_xy <$> bus_table) ∧
  offshore_locs bus_table country `sublist_of` (loc_xy <$> bus_table).
Proof.
  split_and!.
  - intros l. apply onshore_locs_elem_iff.
  - intros l. apply offshore_locs_elem_iff.
  - apply fmap_sublist, sublist_filter.
  - apply fmap_sublist, sublist_filter.
Qed.

(** *** One call instead of two *)

Lemma assign_onshore_single_call_eq inp (locs : list Loc.t) (onshore_shape : geometry) :
  assign_onshore_single_call voronoi_partition_pts inp locs onshore_shape
  = assign_onshore voronoi_partition_pts inp locs onshore_shape.
Proof.
  unfold assign_onshore_single_call, assign_onshore.
  destruct (nuts_clustering inp); [ | reflexivity].
  by destruct (get_nuts_shape locs (nuts_shapes inp)) as [[regions ids]|err].
Qed.

Lemma onshore_frame_single_call_eq inp country :
  onshore_frame_single_call voronoi_partition_pts inp country
  = onshore_frame voronoi_partition_pts inp country.
Proof.
  unfold onshore_frame_single_call, onshore_frame.
  destruct (getitem (country_shapes inp) country) as [onshore_shape|err]; [ | reflexivity].
  simpl. by rewrite assign_onshore_single_call_eq.
Qed.

Lemma country_body_single_call_eq inp acc country :
  country_body_single_call voronoi_partition_pts inp acc country
  = country_body voronoi_partition_pts inp acc country.
Proof.
  unfold country_body_single_call, country_body.
  by rewrite onshore_frame_single_call_eq.
Qed.

Lemma for_countries_single_call_eq inp (cs : list string) acc :
  for_countries_single_call voronoi_partition_pts inp cs acc
  = for_countries voronoi_partition_pts inp cs acc.
Proof.
  revert acc. induction cs as [|country cs IH]; intros acc; simpl; [reflexivity | ].
  rewrite country_body_single_call_eq.
  destruct (country_body voronoi_partition_pts inp acc country) as [acc'|err];
    [apply IH | reflexivity].
Qed.

(** C6. The second [get_nuts_shape] call of a country is redundant: the
    driver that calls it once and uses the two components of that one result
    produces the same onshore output, or the same exception, on every
    input. *)
Theorem single_call_same_onshore_output inp :
  onshore_output_single_call voronoi_partition_pts inp
  = onshore_output voronoi_partition_pts inp.
Proof.
  unfold onshore_output_single_call, onshore_output, country_loop.
  by rewrite for_countries_single_call_eq.
Qed.

(** *** The country loop *)

Lemma country_body_Ok_inv inp acc country acc' :
  country_body voronoi_partition_pts inp acc country = Ok acc' →
  ∃ onshore_c,
    onshore_frame voronoi_partition_pts inp country = Ok onshore_c ∧
    acc'.1 = acc.1 ++ [onshore_c] ∧
    match offshore_shapes inp !! country with
    | None => acc'.2 = acc.2
    | Some offshore_shape =>
        ∃ offshore_c,
          offshore_frame voronoi_partition_pts inp country offshore_shape = Ok offshore_c ∧
          acc'.2 = acc.2 ++ [offshore_c]
    end.
Proof.
  unfold country_body. intros Hrun. inv_bind Hrun.
  exists a. split; [done | ].
  destruct (offshore_shapes inp !! country) as [offshore_shape|].
  - inv_bind Hrun. injection Hrun as <-. split; [done | ]. by exists a0.
  - injection Hrun as <-. done.
Qed.

(** What a completed loop has appended: one onshore frame per listed
    country, in order, and offshore frames of listed countries that have an
    offshore shape. *)
Lemma for_countries_Ok_inv inp (cs : list string) acc acc' :
  for_countries voronoi_partition_pts inp cs acc = Ok acc' →
  ∃ onshore_new offshore_new,
    acc'.1 = acc.1 ++ onshore_new ∧ acc'.2 = acc.2 ++ offshore_new ∧
    Forall2 (λ country df, onshore_frame voronoi_partition_pts inp country = Ok df)
      cs onshore_new ∧
    Forall (λ df, ∃ country offshore_shape,
              country ∈ cs ∧ offshore_shapes inp !! country = Some offshore_shape ∧
              offshore_frame voronoi_partition_pts inp country offshore_shape = Ok df)
      offshore_new.
Proof.
  revert acc. induction cs as [|country cs IH]; intros acc Hrun; simpl in Hrun.
  - injection Hrun as <-. exists [], []. rewrite !app_nil_r. by split_and!.
  - inv_bind Hrun.
    apply country_body_Ok_inv in Ha as (onshore_c & Hon & Hacc1 & Hoff).
    apply IH in Hrun as (onshore_new & offshore_new & -> & -> & Hons & Hoffs).
    assert (Hweaken : Forall (λ df, ∃ country' offshore_shape,
              country' ∈ country :: cs ∧
              offshore_shapes inp !! country' = Some offshore_shape ∧
              offshore_frame voronoi_partition_pts inp country' offshore_shape = Ok df)
              offshore_new).
    { eapply Forall_impl; [exact Hoffs | ].
      intros df (c' & shape & Hin & Hshape & Hframe). exists c', shape.
      split_and!; [by right | done | done]. }
    exists (onshore_c :: onshore_new). rewrite Hacc1, <- app_assoc. simpl.
    destruct (offshore_shapes inp !! country) as [offshore_shape|] eqn:Hshape.
    + destruct Hoff as (offshore_c & Hframe & ->).
      exists (offshore_c :: offshore_new). rewrite <- app_assoc. simpl.
      split_and!; [done | done | by constructor | ].
      constructor; [ | done]. exists country, offshore_shape.
      split_and!; [by left | done | done].
    + rewrite Hoff. exists offshore_new.
      split_and!; [done | done | by constructor | done].
Qed.

Lemma pd_concat_Ok_inv {A} (frames : list (list A)) (out : list A) :
  pd_concat frames = Ok out → frames ≠ [] ∧ out = mjoin frames.
Proof. destruct frames; [discriminate | ]. by intros [= <-]. Qed.

Lemma onshore_output_Ok_inv inp out :
  onshore_output voronoi_partition_pts inp = Ok out →
  ∃ frames, out = mjoin frames ∧
    Forall2 (λ country df, onshore_frame voronoi_partition_pts inp country = Ok df)
      (countries inp) frames.
Proof.
  unfold onshore_output, country_loop. intros Hrun. inv_bind Hrun.
  apply for_countries_Ok_inv in Ha as (onshore_new & offshore_new & Hon & _ & Hons & _).
  apply pd_concat_Ok_inv in Hrun as [_ ->]. rewrite Hon. by exists onshore_new.
Qed.

Lemma offshore_output_Ok_inv inp out :
  offshore_output voronoi_partition_pts inp = Ok out →
  ∃ frames, out = mjoin frames ∧
    Forall (λ df, ∃ country offshore_shape,
              country ∈ countries inp ∧
              offshore_shapes inp !! country = Some offshore_shape ∧
              offshore_frame voronoi_partition_pts inp country offshore_shape = Ok df)
      frames.
Proof.
  unfold offshore_output, country_loop. intros Hrun. inv_bind Hrun.
  apply for_countries_Ok_inv in Ha as (onshore_new & offshore_new & _ & Hoff & _ & Hoffs).
  apply pd_concat_Ok_inv in Hrun as [_ ->]. rewrite Hoff. by exists offshore_new.
Qed.

(** The rows of one offshore frame. *)
Lemma offshore_frame_rows inp country (offshore_shape : geometry) df r :
  offshore_frame voronoi_partition_pts inp country offshore_shape = Ok df →
  r ∈ df →
  Region.country r = country ∧ Region.shape_id r = SidName (Region.name r) ∧
  (min_area <? row_area r)%float = true ∧
  row_loc r ∈ offshore_locs (buses inp) country.
Proof.
  unfold offshore_frame. intros Hrun Hr.
  inv_bind Hrun. inv_bind Hrun. injection Hrun as <-.
  apply list_elem_of_filter in Hr as [Harea Hr].
  apply GeoDataFrame_Ok_inv in Ha0 as (_ & sid & Hsid & _ & ->).
  apply list_elem_of_lookup in Hr as [i Hi].
  apply frame_rows_lookup in Hi as (l & g & s & Hl & _ & Hs & Hrow).
  pose proof (column_cells_lookup _ _ _ _ _ Hsid Hs) as Hname. simpl in Hname.
  rewrite !list_lookup_fmap, Hl in Hname. injection Hname as <-.
  split_and!; [by subst r | by subst r | done | ].
  subst r. unfold row_loc. simpl. apply list_elem_of_lookup. exists i. by destruct l.
Qed.

(** The rows of one onshore frame in Voronoi mode. *)
Lemma onshore_frame_voronoi_rows inp country df r :
  nuts_clustering inp = false →
  onshore_frame voronoi_partition_pts inp country = Ok df →
  r ∈ df →
  Region.country r = country ∧ Region.shape_id r = SidInt (-1).
Proof.
  intros Hmode (shape & geo & shape_id & _ & Hassign & Hdf)%onshore_frame_Ok_inv Hr.
  apply assign_onshore_voronoi_inv in Hassign as (cells & _ & -> & ->); [ | done].
  apply GeoDataFrame_Ok_inv in Hdf as (_ & sid & Hsid & _ & ->).
  apply list_elem_of_lookup in Hr as [i Hi].
  apply frame_rows_lookup in Hi as (l & g & s & _ & _ & Hs & ->).
  pose proof (column_cells_lookup _ _ _ _ _ Hsid Hs) as Hval. simpl in Hval.
  by subst s.
Qed.

(** *** Output rows *)

(** C10. With administrative mode disabled, every row of the onshore output
    has [shape_id] equal to the integer [-1] and every row of the offshore
    output has [shape_id] equal to its own [name]. *)
Theorem shape_id_without_nuts_clustering inp :
  nuts_clustering inp = false →
  (∀ out, onshore_output voronoi_partition_pts inp = Ok out →
     ∀ r, r ∈ out → Region.shape_id r = SidInt (-1)) ∧
  (∀ out, offshore_output voronoi_partition_pts inp = Ok out →
     ∀ r, r ∈ out → Region.shape_id r = SidName (Region.name r)).
Proof.
  intros Hmode. split.
  - intros out (frames & -> & Hframes)%onshore_output_Ok_inv r Hr.
    apply list_elem_of_join in Hr as (df & Hr & Hdf).
    apply list_elem_of_lookup in Hdf as [k Hk].
    destruct (Forall2_lookup_r _ _ _ _ _ Hframes Hk) as (country & _ & Hframe).
    by destruct (onshore_frame_voronoi_rows inp country df r Hmode Hframe Hr).
  - intros out (frames & -> & Hframes)%offshore_output_Ok_inv r Hr.
    apply list_elem_of_join in Hr as (df & Hr & Hdf).
    rewrite Forall_forall in Hframes.
    destruct (Hframes df Hdf) as (country & shape & _ & _ & Hframe).
    by destruct (offshore_frame_rows inp country shape df r Hframe Hr) as (_ & ? & _).
Qed.

(** C4. Every row of the offshore output belongs to a listed country that
    is present in the offshore-shapes collection, so a country absent from it
    has no offshore row, and the area of every row's cell is strictly greater
    than [1e-2]. *)
Theorem offshore_rows_have_shape_and_area inp out :
  offshore_output voronoi_partition_pts inp = Ok out →
  (∀ r, r ∈ out →
     Region.country r ∈ countries inp ∧
     is_Some (offshore_shapes inp !! Region.country r) ∧
     (min_area <? row_area r)%float = true) ∧
  (∀ country, offshore_shapes inp !! country = None →
     ∀ r, r ∈ out → Region.country r ≠ country).
Proof.
  intros (frames & -> & Hframes)%offshore_output_Ok_inv.
  assert (Hrows : ∀ r, r ∈ mjoin frames →
            Region.country r ∈ countries inp ∧
            is_Some (offshore_shapes inp !! Region.country r) ∧
            (min_area <? row_area r)%float = true).
  { intros r (df & Hr & Hdf)%list_elem_of_join.
    rewrite Forall_forall in Hframes.
    destruct (Hframes df Hdf) as (country & shape & Hlisted & Hshape & Hframe).
    destruct (offshore_frame_rows inp country shape df r Hframe Hr) as (-> & _ & Harea & _).
    split_and!; [done | by exists shape | done]. }
  split; [exact Hrows | ].
  intros country Hnone r Hr Hcountry.
  destruct (Hrows r Hr) as (_ & [shape Hshape] & _).
  rewrite Hcountry in Hshape. congruence.
Qed.

(** *** One onshore row per bus *)

Lemma NoDup_fmap_elem_inj {A B} (f : A → B) (xs : list A) (x y : A) :
  NoDup (f <$> xs) → x ∈ xs → y ∈ xs → f x = f y → x = y.
Proof.
  intros Hnodup [i Hi]%list_elem_of_lookup [j Hj]%list_elem_of_lookup Hfxy.
  assert (i = j) as ->.
  { eapply NoDup_lookup; [exact Hnodup | | ].
    - rewrite list_lookup_fmap, Hi. reflexivity.
    - rewrite list_lookup_fmap, Hj. simpl. by rewrite Hfxy. }
  congruence.
Qed.

Lemma onshore_locs_names (bus_table : list Bus.t) country :
  Loc.name <$> onshore_locs bus_table country
  = Bus.name <$> filter (λ b, Bus.country b = country ∧ Bus.substation_lv b = true) bus_table.
Proof. unfold onshore_locs. rewrite <- list_fmap_compose. reflexivity. Qed.

(** With unique bus names and no country listed twice, no name occurs twice
    among the selections of the listed countries. *)
Lemma selected_names_NoDup (bus_table : list Bus.t) (cs : list string) :
  NoDup cs → NoDup (Bus.name <$> bus_table) →
  NoDup (Loc.name <$> mjoin (onshore_locs bus_table <$> cs)).
Proof.
  intros Hcs Hnames. induction Hcs as [|country cs Hfresh Hcs IH]; simpl.
  - constructor.
  - rewrite fmap_app. apply NoDup_app. split_and!; [ | | exact IH].
    + rewrite onshore_locs_names.
      eapply sublist_NoDup; [exact Hnames | ]. apply fmap_sublist, sublist_filter.
    + intros n (l1 & -> & Hl1)%list_elem_of_fmap (l2 & Hn & Hl2)%list_elem_of_fmap.
      apply onshore_locs_elem_iff in Hl1 as (b1 & Hb1 & Hc1 & _ & ->).
      apply list_elem_of_join in Hl2 as (sel & Hl2 & Hsel).
      apply list_elem_of_fmap in Hsel as (country' & -> & Hcountry').
      apply onshore_locs_elem_iff in Hl2 as (b2 & Hb2 & Hc2 & _ & ->).
      assert (b1 = b2) as -> by (by eapply (NoDup_fmap_elem_inj Bus.name)).
      apply Hfresh. by rewrite <- Hc1, Hc2.
Qed.

Lemma onshore_frames_locs inp (cs : list string)
    (frames : list (list (Region.t geometry Id))) :
  Forall2 (λ country df, onshore_frame voronoi_partition_pts inp country = Ok df) cs frames →
  row_loc <$> mjoin frames = mjoin (onshore_locs (buses inp) <$> cs).
Proof.
  induction 1 as [|country df cs frames Hframe _ IH]; simpl; [reflexivity | ].
  rewrite fmap_app, IH. by rewrite (onshore_frame_locs inp country df Hframe).
Qed.

(** C3 (as amended). When no country is listed twice (bus names being
    unique) and the run reaches the onshore output, that output has, for
    every listed country and every bus with that country code and
    [substation_lv] set, exactly one row whose name, x and y are the bus's. *)
Theorem one_onshore_row_per_bus inp out country b :
  NoDup (countries inp) →
  NoDup (Bus.name <$> buses inp) →
  onshore_output voronoi_partition_pts inp = Ok out →
  country ∈ countries inp →
  b ∈ buses inp → Bus.country b = country → Bus.substation_lv b = true →
  exactly_one (row_of_bus b) out.
Proof.
  intros Hcs Hnames (frames & -> & Hframes)%onshore_output_Ok_inv Hlisted Hb Hc Hlv.
  pose proof (onshore_frames_locs inp _ _ Hframes) as Hlocs.
  pose proof (selected_names_NoDup _ _ Hcs Hnames) as Hnodup.
  rewrite <- Hlocs in Hnodup.
  assert (Hin : loc_xy b ∈ row_loc <$> mjoin frames).
  { rewrite Hlocs. apply list_elem_of_join.
    exists (onshore_locs (buses inp) country). split.
    - apply onshore_locs_elem_iff. by exists b.
    - apply list_elem_of_fmap. by exists country. }
  apply list_elem_of_lookup in Hin as [i Hi].
  apply list_lookup_fmap_Some in Hi as (r & Hr & Hi).
  exists i, r. split_and!; [done | | ].
  - unfold row_of_bus. unfold row_loc, loc_xy in Hr. by injection Hr as -> -> ->.
  - intros j r' Hj (Hname & _ & _).
    eapply NoDup_lookup; [exact Hnodup | | ].
    + rewrite !list_lookup_fmap, Hj. simpl. by rewrite Hname.
    + rewrite !list_lookup_fmap, Hi. simpl.
      unfold row_loc, loc_xy in Hr. by injection Hr as -> _ _.
Qed.

(** *** Missing countries *)

Lemma filter_none {A} (P : A → Prop) `{!∀ x, Decision (P x)} (xs : list A) :
  (∀ x, x ∈ xs → ¬ P x) → filter P xs = [].
Proof.
  intros Hnone. destruct (filter P xs) as [|x rest] eqn:Hfilter; [reflexivity | ].
  assert (x ∈ filter P xs) as [HP Hx]%list_elem_of_filter by (rewrite Hfilter; left).
  by destruct (Hnone x Hx).
Qed.

Lemma onshore_frame_missing_shape inp country :
  country_shapes inp !! country = None →
  onshore_frame voronoi_partition_pts inp country = Raise (KeyError country).
Proof. intros Hnone. unfold onshore_frame, getitem. by rewrite Hnone. Qed.

Lemma country_body_missing_shape inp acc country :
  country_shapes inp !! country = None →
  country_body voronoi_partition_pts inp acc country = Raise (KeyError country).
Proof. intros Hnone. unfold country_body. by rewrite onshore_frame_missing_shape. Qed.

Lemma for_countries_app inp (pre post : list string) acc :
  for_countries voronoi_partition_pts inp (pre ++ post) acc
  = for_countries voronoi_partition_pts inp pre acc
      ≫= for_countries voronoi_partition_pts inp post.
Proof.
  revert acc. induction pre as [|country pre IH]; intros acc; simpl; [reflexivity | ].
  destruct (country_body voronoi_partition_pts inp acc country) as [acc'|err];
    [apply IH | reflexivity].
Qed.

Lemma for_countries_missing_shape inp (cs : list string) acc country :
  country ∈ cs → country_shapes inp !! country = None →
  ∃ e, for_countries voronoi_partition_pts inp cs acc = Raise e.
Proof.
  intros Hlisted Hnone. revert acc.
  induction cs as [|country' cs IH]; intros acc; [by apply elem_of_nil in Hlisted | ].
  simpl. apply elem_of_cons in Hlisted as [<- | Hlisted].
  - rewrite country_body_missing_shape by done. by eexists.
  - destruct (country_body voronoi_partition_pts inp acc country') as [acc'|err].
    + apply IH, Hlisted.
    + by eexists.
Qed.

Lemma main_loop_raises inp (fs : gmap string file) (e : exn) :
  country_loop voronoi_partition_pts inp = Raise e →
  main voronoi_partition_pts file infer_schema to_file inp fs = (fs, Raise e).
Proof. intros Hloop. unfold main, mbind, IO_bind, pure. by rewrite Hloop. Qed.

(** C5 (as amended). A listed country that is absent from the onshore
    country-shapes collection makes the run raise: the exception is not
    caught, no output is written, and when the countries listed before it
    were processed the exception is the [KeyError] of that country's lookup.
    A country absent from the bus table raises nothing at the bus selection:
    its two selections are empty. *)
Theorem missing_country_shape_aborts inp (fs : gmap string file) country :
  country ∈ countries inp →
  country_shapes inp !! country = None →
  (∃ e, country_loop voronoi_partition_pts inp = Raise e ∧
        main voronoi_partition_pts file infer_schema to_file inp fs = (fs, Raise e)) ∧
  (∀ pre post acc,
     countries inp = pre ++ country :: post →
     for_countries voronoi_partition_pts inp pre ([], []) = Ok acc →
     country_loop voronoi_partition_pts inp = Raise (KeyError country)) ∧
  (∀ country',
     (∀ b, b ∈ buses inp → Bus.country b ≠ country') →
     onshore_locs (buses inp) country' = [] ∧ offshore_locs (buses inp) country' = []).
Proof.
  intros Hlisted Hnone. split_and!.
  - destruct (for_countries_missing_shape inp (countries inp) ([], []) country Hlisted Hnone)
      as [e He].
    exists e. split; [exact He | by apply main_loop_raises].
  - intros pre post acc Hsplit Hpre. unfold country_loop.
    rewrite Hsplit, for_countries_app, Hpre. simpl.
    by rewrite country_body_missing_shape.
  - intros country' Habsent. unfold onshore_locs, offshore_locs.
    split; (rewrite filter_none; [reflexivity | ]);
      intros b Hb [Hc _]; by apply (Habsent b Hb).
Qed.

(** *** Writing a file *)

(** C8. When a file exists at the output path, [save_to_geojson] deletes it
    before the driver writes: the driver finds nothing at the path, so on
    success the path holds what the driver writes on a fresh path (the old
    file is replaced, not appended to or merged), on a failure of the schema
    inference or of the driver the old file is gone, the outcome does not
    depend on the old file, and no other path is touched. *)
Theorem save_to_geojson_replaces_existing (s : list (Region.t geometry Id)) (fn : string)
    (fs : gmap string file) (old : file) :
  fs !! fn = Some old →
  save_to_geojson file infer_schema to_file s fn fs
  = match infer_schema s with
    | Ok inferred =>
        match to_file s (<["geometry" := GeomType "Unknown"]> inferred) None with
        | Ok f => (<[fn := f]> fs, Ok ())
        | Raise e => (delete fn fs, Raise e)
        end
    | Raise e => (delete fn fs, Raise e)
    end ∧
  save_to_geojson file infer_schema to_file s fn fs
  = save_to_geojson file infer_schema to_file s fn (delete fn fs) ∧
  ∀ fn', fn' ≠ fn →
    (save_to_geojson file infer_schema to_file s fn fs).1 !! fn' = fs !! fn'.
Proof.
  intros Hold.
  assert (Hsave : save_to_geojson file infer_schema to_file s fn fs
    = match infer_schema s with
      | Ok inferred =>
          match to_file s (<["geometry" := GeomType "Unknown"]> inferred) None with
          | Ok f => (<[fn := f]> fs, Ok ())
          | Raise e => (delete fn fs, Raise e)
          end
      | Raise e => (delete fn fs, Raise e)
      end).
  { unfold save_to_geojson, mbind, IO_bind, path_exists, unlink, pure, GeoDataFrame_to_file.
    rewrite bool_decide_eq_true_2 by (by rewrite Hold).
    rewrite decide_True by (by rewrite Hold).
    destruct (infer_schema s) as [inferred|e]; [ | reflexivity].
    rewrite lookup_delete_eq.
    destruct (to_file s _ None) as [f|e]; [by rewrite insert_delete_eq | reflexivity]. }
  split_and!; [exact Hsave | | ].
  - rewrite Hsave.
    unfold save_to_geojson, mbind, IO_bind, path_exists, unlink, pure, GeoDataFrame_to_file.
    rewrite bool_decide_eq_false_2 by (rewrite lookup_delete_eq; by intros [? ?]).
    unfold mret, IO_ret.
    destruct (infer_schema s) as [inferred|e]; [ | reflexivity].
    rewrite lookup_delete_eq.
    destruct (to_file s _ None) as [f|e]; [by rewrite insert_delete_eq | reflexivity].
  - intros fn' Hother. rewrite Hsave.
    destruct (infer_schema s) as [inferred|e]; simpl.
    + destruct (to_file s _ None) as [f|e]; simpl.
      * by rewrite lookup_insert_ne.
      * by rewrite lookup_delete_ne.
    + by rewrite lookup_delete_ne.
Qed.

End Properties.

(** ** The properties on the example data *)

(** Decide a closed decidable proposition by evaluation. *)
Ltac by_evaluation :=
  match goal with
  | |- ?P => apply (bool_decide_unpack P); vm_compute; exact I
  end.

(** C1. The [except] branches look the probe polygon up and drop it: for a
    bus point in no polygon, with the probe point in exactly one polygon,
    [get_nuts_shape] returns [None] for the polygon and for the id, not the
    probe point's polygon and id. *)
Theorem fallback_drops_probe_polygon :
  selection nuts_example (coords_point in_no_polygon) = [] ∧
  selection nuts_example probe = [("IT", box_IT)] ∧
  get_nuts_shape [in_no_polygon] nuts_example = Ok ([None], [None]) ∧
  get_nuts_shape [in_no_polygon] nuts_example ≠ Ok ([Some box_IT], [Some "IT"]).
Proof. split_and!; [by vm_compute | by vm_compute | by vm_compute | vm_compute; discriminate]. Qed.

(** Counterexample to C2 as stated: a point in two polygons gets neither the
    first polygon nor its id, and without a polygon around the probe point
    the lookup raises. *)
Lemma first_match_does_not_win :
  selection nuts_example (coords_point in_A_and_B) = [("A", box_A); ("B", box_B)] ∧
  locate_bus nuts_example in_A_and_B ≠ Ok (Some box_A) ∧
  get_id nuts_example in_A_and_B ≠ Ok (Some "A") ∧
  selection nuts_without_probe (coords_point in_A_and_B) = [("A", box_A); ("B", box_B)] ∧
  locate_bus nuts_without_probe in_A_and_B = Raise ValueError ∧
  get_id nuts_without_probe in_A_and_B = Raise ValueError.
Proof.
  split_and!; try (by vm_compute); vm_compute; discriminate.
Qed.

(** C2 (as amended) on the example. *)
Lemma multiple_matches_handled_as_no_match_witness :
  1 < length (selection nuts_example (coords_point in_A_and_B)) ∧
  selection nuts_example (coords_point in_no_polygon) = [] ∧
  locate_bus nuts_example in_A_and_B = locate_bus nuts_example in_no_polygon ∧
  get_id nuts_example in_A_and_B = get_id nuts_example in_no_polygon ∧
  (length (selection nuts_example probe) ≠ 1 →
   locate_bus nuts_example in_A_and_B = Raise ValueError ∧
   get_id nuts_example in_A_and_B = Raise ValueError).
Proof.
  assert (Hmany : 1 < length (selection nuts_example (coords_point in_A_and_B)))
    by (vm_compute; lia).
  assert (Hnone : selection nuts_example (coords_point in_no_polygon) = [])
    by (vm_compute; reflexivity).
  destruct (multiple_matches_handled_as_no_match nuts_example in_A_and_B Hmany)
    as [Hsame Hraise].
  destruct (Hsame in_no_polygon Hnone) as [Hgeo Hid].
  split_and!; assumption.
Defined.

(** C9 on the example: the second bus of "DE" lies in two polygons. *)
Lemma failed_lookup_gives_null_row_witness :
  selection nuts_example probe = [("IT", box_IT)] ∧
  locate_bus nuts_example in_no_polygon = Ok None ∧
  get_id nuts_example in_no_polygon = Ok None ∧
  ∃ df r,
    onshore_frame whole_outline_cells (inputs_example true) "DE" = Ok df ∧
    df !! 1 = Some r ∧ row_loc r = in_A_and_B ∧
    Region.geometry r = None ∧ Region.shape_id r = SidNone.
Proof.
  assert (Hprobe : selection nuts_example probe = [("IT", box_IT)])
    by (vm_compute; reflexivity).
  destruct (failed_lookup_gives_null_row whole_outline_cells nuts_example _ Hprobe)
    as [Hclosures Hrows].
  destruct (Hclosures in_no_polygon) as [Hgeo Hid]; [vm_compute; lia | ].
  destruct (Hrows (inputs_example true) "DE" 1 in_A_and_B) as (df & r & Hr);
    [reflexivity | reflexivity | exists land_DE; vm_compute; reflexivity
    | by vm_compute | vm_compute; lia | ].
  split_and!; [exact Hprobe | exact Hgeo | exact Hid | ].
  by exists df, r.
Defined.

(** Counterexample to C3 as stated: "DE" listed twice gives every bus of
    "DE" two rows. *)
Lemma repeated_country_repeats_rows :
  "DE" ∈ countries inputs_repeated_country ∧
  bus1 ∈ buses inputs_repeated_country ∧
  Bus.country bus1 = "DE" ∧ Bus.substation_lv bus1 = true ∧
  ∃ out, onshore_output whole_outline_cells inputs_repeated_country = Ok out ∧
         ¬ exactly_one (row_of_bus bus1) out.
Proof.
  split_and!; [by left | by left | reflexivity | reflexivity | ].
  eexists. split; [vm_compute; reflexivity | ].
  intros (i & a & _ & _ & Hunique).
  pose proof (Hunique 0 _ eq_refl (conj eq_refl (conj eq_refl eq_refl))) as H0.
  pose proof (Hunique 2 _ eq_refl (conj eq_refl (conj eq_refl eq_refl))) as H2.
  lia.
Qed.

(** C3 (as amended) on the example. *)
Lemma one_onshore_row_per_bus_witness :
  NoDup (countries (inputs_example true)) ∧
  NoDup (Bus.name <$> buses (inputs_example true)) ∧
  (∃ out, onshore_output whole_outline_cells (inputs_example true) = Ok out ∧
          exactly_one (row_of_bus bus2) out).
Proof.
  assert (Hcountries : NoDup (countries (inputs_example true)))
    by by_evaluation.
  assert (Hnames : NoDup (Bus.name <$> buses (inputs_example true)))
    by by_evaluation.
  split_and!; [exact Hcountries | exact Hnames | ].
  eexists. split; [vm_compute; reflexivity | ].
  apply (one_onshore_row_per_bus whole_outline_cells (inputs_example true) _ "DE" bus2
           Hcountries Hnames); [by vm_compute | | | reflexivity | reflexivity].
  - by_evaluation.
  - apply list_elem_of_lookup. by exists 1.
Defined.

(** C4 on the example: the cell of "FR" is below the threshold and only
    the offshore bus of "DE" has a row. *)
Lemma offshore_rows_have_shape_and_area_witness :
  ∃ out,
    offshore_output whole_outline_cells (inputs_example false) = Ok out ∧
    length out = 1 ∧
    (∀ r, r ∈ out →
       Region.country r ∈ countries (inputs_example false) ∧
       is_Some (offshore_shapes (inputs_example false) !! Region.country r) ∧
       (min_area <? row_area r)%float = true) ∧
    (∀ country, offshore_shapes (inputs_example false) !! country = None →
       ∀ r, r ∈ out → Region.country r ≠ country).
Proof.
  eexists. split; [vm_compute; reflexivity | ].
  split; [reflexivity | ].
  apply (offshore_rows_have_shape_and_area whole_outline_cells (inputs_example false)).
  vm_compute. reflexivity.
Defined.

(** C10 on the example. *)
Lemma shape_id_without_nuts_clustering_witness :
  nuts_clustering (inputs_example false) = false ∧
  (∃ out, onshore_output whole_outline_cells (inputs_example false) = Ok out ∧
          length out = 3 ∧ ∀ r, r ∈ out → Region.shape_id r = SidInt (-1)) ∧
  (∃ out, offshore_output whole_outline_cells (inputs_example false) = Ok out ∧
          length out = 1 ∧ ∀ r, r ∈ out → Region.shape_id r = SidName (Region.name r)).
Proof.
  destruct (shape_id_without_nuts_clustering whole_outline_cells (inputs_example false))
    as [Honshore Hoffshore]; [reflexivity | ].
  split_and!; [reflexivity | | ].
  - eexists. split; [vm_compute; reflexivity | ]. split; [reflexivity | ].
    apply Honshore. vm_compute. reflexivity.
  - eexists. split; [vm_compute; reflexivity | ]. split; [reflexivity | ].
    apply Hoffshore. vm_compute. reflexivity.
Defined.

(** Counterexample to C5 as stated: a listed country without buses raises
    no lookup error. *)
Lemma country_without_buses_raises_no_lookup_error :
  "XX" ∈ countries inputs_country_without_buses ∧
  is_Some (country_shapes inputs_country_without_buses !! "XX") ∧
  Forall (λ b, Bus.country b ≠ "XX") (buses inputs_country_without_buses) ∧
  ∀ label, country_loop whole_outline_cells inputs_country_without_buses
           ≠ Raise (KeyError label).
Proof.
  split_and!.
  - by_evaluation.
  - exists land_FR. vm_compute. reflexivity.
  - repeat constructor; discriminate.
  - intros label. vm_compute. discriminate.
Qed.

(** C5 (as amended) on the example. *)
Lemma missing_country_shape_aborts_witness :
  "XX" ∈ countries inputs_country_without_shape ∧
  country_shapes inputs_country_without_shape !! "XX" = None ∧
  country_loop whole_outline_cells inputs_country_without_shape = Raise (KeyError "XX") ∧
  ∃ e, main whole_outline_cells _ infer_polygon_schema appending_driver
         inputs_country_without_shape ∅ = (∅, Raise e).
Proof.
  assert (Hlisted : "XX" ∈ countries inputs_country_without_shape) by by_evaluation.
  assert (Hnone : country_shapes inputs_country_without_shape !! "XX" = None)
    by (vm_compute; reflexivity).
  destruct (missing_country_shape_aborts whole_outline_cells _ infer_polygon_schema
              appending_driver inputs_country_without_shape ∅ "XX" Hlisted Hnone)
    as ((e & _ & Hmain) & Hkey & _).
  split_and!; [exact Hlisted | exact Hnone | | by exists e].
  eapply (Hkey ["DE"] []); [reflexivity | vm_compute; reflexivity].
Defined.

(** C8 on the example: a driver that would append to an existing file
    leaves the new rows only. *)
Lemma save_to_geojson_replaces_existing_witness :
  ({[ "resources/regions_onshore.geojson" := (polygon_schema, old_rows) ]}
     : gmap string (gmap string SchemaValue * list (Region.t Box string)))
    !! "resources/regions_onshore.geojson" = Some (polygon_schema, old_rows) ∧
  appending_driver new_rows polygon_schema (Some (polygon_schema, old_rows))
    = Ok (polygon_schema, old_rows ++ new_rows) ∧
  save_to_geojson _ infer_polygon_schema appending_driver new_rows
    "resources/regions_onshore.geojson"
    {[ "resources/regions_onshore.geojson" := (polygon_schema, old_rows) ]}
  = (<[ "resources/regions_onshore.geojson" :=
          (<["geometry" := GeomType "Unknown"]> polygon_schema, new_rows) ]>
       {[ "resources/regions_onshore.geojson" := (polygon_schema, old_rows) ]},
     Ok ()).
Proof.
  split_and!; [by vm_compute | reflexivity | ].
  destruct (save_to_geojson_replaces_existing _ infer_polygon_schema appending_driver
              new_rows "resources/regions_onshore.geojson"
              {[ "resources/regions_onshore.geojson" := (polygon_schema, old_rows) ]}
              (polygon_schema, old_rows))
    as (Hsave & _ & _); [by vm_compute | ].
  exact Hsave.
Defined.

(** ** Further properties of the script *)

Section FurtherProperties.

Context {geometry Id : Type} `{!Geometry geometry}.
Variable voronoi_partition_pts : list (float * float) → geometry → result (list geometry).
Variable file : Type.
Variable infer_schema : list (Region.t geometry Id) → result (gmap string SchemaValue).
Variable to_file :
  list (Region.t geometry Id) → gmap string SchemaValue → option file → result file.

Implicit Types (shapes : list (Id * geometry)) (coords l : Loc.t) (b : Bus.t).
Implicit Types (inp : @Inputs geometry Id) (country c : string).
Implicit Types (df : list (Region.t geometry Id)) (r : Region.t geometry Id).

Ltac inv_bind H :=
  let a := fresh "a" in
  let Ha := fresh "Ha" in
  apply bind_Ok_inv in H as (a & Ha & H).

(** *** The two closures *)

Lemma length_one_inv {A} (xs : list A) : length xs = 1 → ∃ a, xs = [a].
Proof. destruct xs as [|a [|a' xs]]; try discriminate. by exists a. Qed.

Lemma locate_bus_Raise_inv shapes coords (e : exn) :
  locate_bus shapes coords = Raise e →
  e = ValueError ∧
  length (selection shapes (coords_point coords)) ≠ 1 ∧
  length (selection shapes probe) ≠ 1.
Proof.
  intros Hraise.
  destruct (decide (length (selection shapes (coords_point coords)) = 1)) as [Hone|Hmiss].
  { apply length_one_inv in Hone as [entry Hentry].
    by rewrite (locate_bus_found _ _ _ Hentry) in Hraise. }
  rewrite locate_bus_except in Hraise by done.
  destruct (decide (length (selection shapes probe) = 1)) as [Hprobe|Hprobe].
  { apply length_one_inv in Hprobe as [entry Hentry]. by rewrite Hentry in Hraise. }
  rewrite item_not_single in Hraise by (by rewrite length_fmap).
  by injection Hraise as <-.
Qed.

Lemma get_id_Raise_inv shapes coords (e : exn) :
  get_id shapes coords = Raise e →
  e = ValueError ∧
  length (selection shapes (coords_point coords)) ≠ 1 ∧
  length (selection shapes probe) ≠ 1.
Proof.
  intros Hraise.
  destruct (decide (length (selection shapes (coords_point coords)) = 1)) as [Hone|Hmiss].
  { apply length_one_inv in Hone as [entry Hentry].
    by rewrite (get_id_found _ _ _ Hentry) in Hraise. }
  rewrite get_id_except in Hraise by done.
  destruct (decide (length (selection shapes probe) = 1)) as [Hprobe|Hprobe].
  { apply length_one_inv in Hprobe as [entry Hentry]. by rewrite Hentry in Hraise. }
  rewrite item_not_single in Hraise by (by rewrite length_fmap).
  by injection Hraise as <-.
Qed.

(** X1. [locate_bus] and [get_id] always describe the same entry of the
    polygon series: either the bus point is in exactly one polygon and they
    return that polygon and its label, or the lookup fails and both return
    [None] (probe point in exactly one polygon) or both raise [ValueError]
    (otherwise).  Nothing else can come out of them. *)
Theorem locate_bus_get_id_cases shapes coords :
  (∃ i g, selection shapes (coords_point coords) = [(i, g)] ∧
          locate_bus shapes coords = Ok (Some g) ∧ get_id shapes coords = Ok (Some i)) ∨
  (length (selection shapes (coords_point coords)) ≠ 1 ∧
   length (selection shapes probe) = 1 ∧
   locate_bus shapes coords = Ok None ∧ get_id shapes coords = Ok None) ∨
  (length (selection shapes (coords_point coords)) ≠ 1 ∧
   length (selection shapes probe) ≠ 1 ∧
   locate_bus shapes coords = Raise ValueError ∧
   get_id shapes coords = Raise ValueError).
Proof.
  destruct (decide (length (selection shapes (coords_point coords)) = 1)) as [Hone|Hmiss].
  { left. apply length_one_inv in Hone as [[i g] Hentry]. exists i, g.
    split_and!; [done | by apply (locate_bus_found _ _ (i, g))
                | by apply (get_id_found _ _ (i, g))]. }
  right.
  destruct (decide (length (selection shapes probe) = 1)) as [Hprobe|Hprobe].
  - left. split_and!; [done | done | | ].
    + apply length_one_inv in Hprobe as [entry Hentry].
      rewrite locate_bus_except by done. by rewrite Hentry.
    + apply length_one_inv in Hprobe as [entry Hentry].
      rewrite get_id_except by done. by rewrite Hentry.
  - right. split_and!; [done | done | | ].
    + rewrite locate_bus_except by done.
      by rewrite item_not_single by (by rewrite length_fmap).
    + rewrite get_id_except by done.
      by rewrite item_not_single by (by rewrite length_fmap).
Qed.

(** *** get_nuts_shape as a whole *)

Lemma apply_rows_Raise_inv {A B} (f : A → result B) (rows : list A) (e : exn) :
  apply_rows f rows = Raise e → ∃ a, a ∈ rows ∧ f a = Raise e.
Proof.
  induction rows as [|a rows IH]; simpl; [discriminate | ].
  destruct (f a) as [v|e'] eqn:Hfa; simpl.
  - destruct (apply_rows f rows) as [vs|e'']; simpl; [discriminate | ].
    intros [= ->]. destruct IH as (a' & Ha' & Hfa'); [done | ].
    exists a'. split; [by right | done].
  - intros [= ->]. exists a. split; [by left | done].
Qed.

Lemma apply_rows_ext {A B} (f g : A → result B) (rows : list A) :
  (∀ a, f a = g a) → apply_rows f rows = apply_rows g rows.
Proof.
  intros Hfg. induction rows as [|a rows IH]; simpl; [reflexivity | ].
  by rewrite Hfg, IH.
Qed.

Lemma get_nuts_shape_Raise_inv shapes (locs : list Loc.t) (e : exn) :
  get_nuts_shape locs shapes = Raise e →
  e = ValueError ∧ length (selection shapes probe) ≠ 1 ∧
  ∃ l, l ∈ locs ∧ length (selection shapes (coords_point l)) ≠ 1.
Proof.
  unfold get_nuts_shape. intros Hraise.
  destruct (apply_rows (locate_bus shapes) locs) as [regions|e1] eqn:Hregions; simpl in Hraise.
  - destruct (apply_rows (get_id shapes) locs) as [ids|e2] eqn:Hids; simpl in Hraise;
      [discriminate | ].
    injection Hraise as ->.
    apply apply_rows_Raise_inv in Hids as (l & Hl & Hget).
    apply get_id_Raise_inv in Hget as (-> & Hmiss & Hprobe).
    split_and!; [done | done | by exists l].
  - injection Hraise as ->.
    apply apply_rows_Raise_inv in Hregions as (l & Hl & Hlocate).
    apply locate_bus_Raise_inv in Hlocate as (-> & Hmiss & Hprobe).
    split_and!; [done | done | by exists l].
Qed.

(** X2. [get_nuts_shape] raises exactly when some bus point is not in
    exactly one polygon while the probe point is not in exactly one polygon
    either; the exception is then a [ValueError] and nothing else is ever
    raised.  Otherwise it returns two arrays with one cell per bus. *)
Theorem get_nuts_shape_raises_iff shapes (locs : list Loc.t) :
  (get_nuts_shape locs shapes = Raise ValueError ↔
     length (selection shapes probe) ≠ 1 ∧
     ∃ l, l ∈ locs ∧ length (selection shapes (coords_point l)) ≠ 1) ∧
  (∀ e, get_nuts_shape locs shapes = Raise e → e = ValueError) ∧
  (∀ regions ids, get_nuts_shape locs shapes = Ok (regions, ids) →
     length regions = length locs ∧ length ids = length locs).
Proof.
  split_and!.
  - split.
    + intros (_ & Hprobe & Hmiss)%get_nuts_shape_Raise_inv. by split.
    + intros (Hprobe & l & Hl & Hmiss).
      assert (Hlocate : locate_bus shapes l = Raise ValueError).
      { rewrite locate_bus_except by done.
        by rewrite item_not_single by (by rewrite length_fmap). }
      destruct (get_nuts_shape locs shapes) as [[regions ids]|e'] eqn:Hrun.
      * apply get_nuts_shape_Ok_inv in Hrun as [Hregions _].
        apply list_elem_of_lookup in Hl as [k Hk].
        destruct (Forall2_lookup_l _ _ _ _ _ Hregions Hk) as (v & _ & Hv). congruence.
      * by apply get_nuts_shape_Raise_inv in Hrun as (-> & _).
  - by intros e (-> & _)%get_nuts_shape_Raise_inv.
  - intros regions ids [Hregions Hids]%get_nuts_shape_Ok_inv.
    split; symmetry; by eapply Forall2_length.
Qed.

(** *** The order of the polygons *)

Lemma selection_Permutation shapes shapes' (pt : Point) :
  shapes ≡ₚ shapes' → selection shapes pt ≡ₚ selection shapes' pt.
Proof. intros Hperm. unfold selection. by rewrite Hperm. Qed.

Lemma item_Permutation {A} (xs ys : list A) : xs ≡ₚ ys → item xs = item ys.
Proof.
  intros Hperm. pose proof (Permutation_length Hperm) as Hlen.
  destruct xs as [|a [|a' xs]].
  - apply Permutation_nil_l in Hperm. by subst.
  - apply Permutation_singleton_l in Hperm. by subst.
  - destruct ys as [|y [|y' ys]]; [discriminate | discriminate | reflexivity].
Qed.

(** X3. The assignment does not depend on the order of the polygon series:
    because [.item()] accepts a selection of size one only, reordering
    [nuts_shapes] changes neither the polygons, nor the ids, nor whether
    [get_nuts_shape] raises. *)
Theorem get_nuts_shape_order_independent shapes shapes' (locs : list Loc.t) :
  shapes ≡ₚ shapes' →
  get_nuts_shape locs shapes = get_nuts_shape locs shapes'.
Proof.
  intros Hperm. unfold get_nuts_shape.
  rewrite (apply_rows_ext (locate_bus shapes) (locate_bus shapes')).
  2:{ intros coords. unfold locate_bus.
      rewrite (item_Permutation ((selection shapes (coords_point coords)).*2)
                 ((selection shapes' (coords_point coords)).*2))
        by (by apply fmap_Permutation, selection_Permutation).
      rewrite (item_Permutation ((selection shapes probe).*2)
                 ((selection shapes' probe).*2))
        by (by apply fmap_Permutation, selection_Permutation).
      reflexivity. }
  rewrite (apply_rows_ext (get_id shapes) (get_id shapes')).
  2:{ intros coords. unfold get_id.
      rewrite (item_Permutation ((selection shapes (coords_point coords)).*1)
                 ((selection shapes' (coords_point coords)).*1))
        by (by apply fmap_Permutation, selection_Permutation).
      rewrite (item_Permutation ((selection shapes probe).*1)
                 ((selection shapes' probe).*1))
        by (by apply fmap_Permutation, selection_Permutation).
      reflexivity. }
  reflexivity.
Qed.

(** *** Rows of the onshore frame *)

(** X4. In administrative mode a bus whose point lies in exactly one polygon
    gets, at its own position in the country's onshore frame, a row with its
    name and coordinates, that polygon as geometry, the loop's country and
    the polygon's label as [shape_id]. *)
Theorem found_bus_gets_polygon_and_label inp country df (i : nat) l (k : Id) (g : geometry) :
  nuts_clustering inp = true →
  onshore_frame voronoi_partition_pts inp country = Ok df →
  onshore_locs (buses inp) country !! i = Some l →
  selection (nuts_shapes inp) (coords_point l) = [(k, g)] →
  df !! i = Some (Region.mk (Loc.name l) (Loc.x l) (Loc.y l) (Some g) country (SidLabel k)).
Proof.
  intros Hmode (shape & geo & shape_id & _ & Hassign & Hdf)%onshore_frame_Ok_inv Hl Hsel.
  apply assign_onshore_nuts_inv in Hassign as (ids & Hcall & ->); [ | done].
  apply get_nuts_shape_Ok_inv in Hcall as [Hregions Hids].
  destruct (Forall2_lookup_l _ _ _ _ _ Hregions Hl) as (g' & Hg' & Hlocate).
  destruct (Forall2_lookup_l _ _ _ _ _ Hids Hl) as (k' & Hk' & Hget).
  rewrite (locate_bus_found _ _ _ Hsel) in Hlocate. injection Hlocate as <-.
  rewrite (get_id_found _ _ _ Hsel) in Hget. injection Hget as <-.
  apply GeoDataFrame_Ok_inv in Hdf as (_ & sid & Hsid & _ & ->).
  simpl in Hsid. case_decide; [injection Hsid as <- | discriminate].
  apply frame_rows_lookup. exists l, (Some g), (SidLabel k).
  split_and!; [done | done | | done].
  rewrite list_lookup_fmap, Hk'. reflexivity.
Qed.

(** X5. In Voronoi mode the cells are paired with the buses by position:
    when the routine returns as many cells as there are buses, the frame has
    one row per bus and row [i] carries cell [i] and [shape_id] [-1]; when it
    returns another number of cells the frame constructor raises
    [ValueError]; what the routine raises is raised by the frame. *)
Theorem voronoi_frame_by_position inp country (onshore_shape : geometry) :
  nuts_clustering inp = false →
  country_shapes inp !! country = Some onshore_shape →
  match voronoi_partition_pts (values (onshore_locs (buses inp) country)) onshore_shape with
  | Raise e => onshore_frame voronoi_partition_pts inp country = Raise e
  | Ok cells =>
      (length cells ≠ length (onshore_locs (buses inp) country) →
       onshore_frame voronoi_partition_pts inp country = Raise ValueError) ∧
      (length cells = length (onshore_locs (buses inp) country) →
       ∃ df, onshore_frame voronoi_partition_pts inp country = Ok df ∧
             length df = length cells ∧
             ∀ i l cell,
               onshore_locs (buses inp) country !! i = Some l → cells !! i = Some cell →
               df !! i = Some (Region.mk (Loc.name l) (Loc.x l) (Loc.y l) (Some cell)
                                 country (SidInt (-1))))
  end.
Proof.
  intros Hmode Hshape.
  unfold onshore_frame, getitem, assign_onshore. rewrite Hshape, Hmode. simpl.
  set (locs := onshore_locs (buses inp) country).
  destruct (voronoi_partition_pts (values locs) onshore_shape) as [cells|e];
    [ | reflexivity].
  simpl. unfold GeoDataFrame. simpl. rewrite length_fmap. split.
  - intros Hlen. by rewrite decide_False.
  - intros Hlen. rewrite decide_True by done. simpl.
    eexists. split; [reflexivity | ]. split.
    + rewrite frame_rows_length;
        [done | by rewrite length_fmap | by rewrite length_replicate].
    + intros i l cell Hl Hcell. apply frame_rows_lookup.
      exists l, (Some cell), (SidInt (-1)). split_and!; [done | | | done].
      * by rewrite list_lookup_fmap, Hcell.
      * apply lookup_replicate. split; [done | ]. by eapply lookup_lt_Some.
Qed.

(** *** Order of the outputs *)

Lemma frame_rows_country_loc (locs : list Loc.t) (geo : list (option geometry)) country
    (sid : list (ShapeId Id)) :
  length geo = length locs → length sid = length locs →
  (λ r, (Region.country r, row_loc r)) <$> frame_rows locs geo country sid
  = pair country <$> locs.
Proof.
  intros Hgeo Hsid. apply list_eq. intros i.
  rewrite !list_lookup_fmap.
  destruct (locs !! i) as [l|] eqn:Hl.
  - destruct (lookup_lt_is_Some_2 geo i) as [g Hg].
    { rewrite Hgeo. by eapply lookup_lt_Some. }
    destruct (lookup_lt_is_Some_2 sid i) as [s Hs].
    { rewrite Hsid. by eapply lookup_lt_Some. }
    assert (frame_rows locs geo country sid !! i
            = Some (Region.mk (Loc.name l) (Loc.x l) (Loc.y l) g country s)) as ->.
    { apply frame_rows_lookup. exists l, g, s. split_and!; done. }
    simpl. by destruct l.
  - rewrite lookup_ge_None_2; [done | ].
    rewrite frame_rows_length by done. by apply lookup_ge_None.
Qed.

Lemma onshore_frame_country_loc inp country df :
  onshore_frame voronoi_partition_pts inp country = Ok df →
  (λ r, (Region.country r, row_loc r)) <$> df
  = pair country <$> onshore_locs (buses inp) country.
Proof.
  intros (shape & geo & shape_id & _ & _ & Hdf)%onshore_frame_Ok_inv.
  apply GeoDataFrame_Ok_inv in Hdf as (Hgeo & sid & _ & Hsid & ->).
  by apply frame_rows_country_loc.
Qed.

(** X6. When the run reaches it, the onshore output lists the listed
    countries in the order of the configuration (a country as often as it is
    listed) and, within a country, that country's onshore buses in the order
    of the bus table, one row per bus, whatever the mode. *)
Theorem onshore_output_in_order inp out :
  onshore_output voronoi_partition_pts inp = Ok out →
  (λ r, (Region.country r, row_loc r)) <$> out
  = countries inp ≫= λ country, pair country <$> onshore_locs (buses inp) country.
Proof.
  intros (frames & -> & Hframes)%onshore_output_Ok_inv.
  induction Hframes as [|country df cs frames Hframe _ IH]; simpl; [reflexivity | ].
  rewrite fmap_app, IH. by rewrite (onshore_frame_country_loc inp country df Hframe).
Qed.

(** *** The offshore output *)

Lemma for_countries_offshore_exact inp (cs : list string) acc acc' :
  for_countries voronoi_partition_pts inp cs acc = Ok acc' →
  ∃ offshore_new,
    acc'.2 = acc.2 ++ offshore_new ∧
    Forall2 (λ country df, ∃ offshore_shape,
               offshore_shapes inp !! country = Some offshore_shape ∧
               offshore_frame voronoi_partition_pts inp country offshore_shape = Ok df)
      (filter (λ country, is_Some (offshore_shapes inp !! country)) cs) offshore_new.
Proof.
  revert acc. induction cs as [|country cs IH]; intros acc Hrun; simpl in Hrun.
  - injection Hrun as <-. exists []. rewrite app_nil_r. split; [done | constructor].
  - inv_bind Hrun.
    apply country_body_Ok_inv in Ha as (onshore_c & _ & _ & Hoff).
    apply IH in Hrun as (offshore_new & -> & Hoffs).
    destruct (offshore_shapes inp !! country) as [offshore_shape|] eqn:Hshape.
    + destruct Hoff as (offshore_c & Hframe & ->).
      exists (offshore_c :: offshore_new). rewrite <- app_assoc. split; [done | ].
      rewrite filter_cons_True by (by rewrite Hshape).
      constructor; [by exists offshore_shape | done].
    + rewrite Hoff. exists offshore_new. split; [done | ].
      rewrite filter_cons_False by (rewrite Hshape; by intros [? ?]). done.
Qed.

Lemma offshore_output_exact inp out :
  offshore_output voronoi_partition_pts inp = Ok out →
  ∃ frames, out = mjoin frames ∧
    Forall2 (λ country df, ∃ offshore_shape,
               offshore_shapes inp !! country = Some offshore_shape ∧
               offshore_frame voronoi_partition_pts inp country offshore_shape = Ok df)
      (filter (λ country, is_Some (offshore_shapes inp !! country)) (countries inp)) frames.
Proof.
  unfold offshore_output, country_loop. intros Hrun. inv_bind Hrun.
  apply for_countries_offshore_exact in Ha as (offshore_new & Hoff & Hoffs).
  apply pd_concat_Ok_inv in Hrun as [_ ->]. rewrite Hoff. by exists offshore_new.
Qed.

Lemma offshore_frame_Ok_inv inp country (offshore_shape : geometry) df :
  offshore_frame voronoi_partition_pts inp country offshore_shape = Ok df →
  ∃ cells,
    voronoi_partition_pts (values (offshore_locs (buses inp) country)) offshore_shape
      = Ok cells ∧
    length cells = length (offshore_locs (buses inp) country) ∧
    df = filter (λ r, (min_area <? row_area r)%float = true)
           (frame_rows (offshore_locs (buses inp) country) (Some <$> cells) country
              (SidName <$> (Loc.name <$> offshore_locs (buses inp) country))).
Proof.
  unfold offshore_frame. intros Hrun.
  inv_bind Hrun. inv_bind Hrun. injection Hrun as <-.
  apply GeoDataFrame_Ok_inv in Ha0 as (Hgeo & sid & Hsid & _ & ->).
  simpl in Hsid. case_decide; [injection Hsid as <- | discriminate].
  exists a. split_and!; [done | by rewrite length_fmap in Hgeo | done].
Qed.

(** X7. When the run reaches it, every row of the offshore output carries a
    geometry (never a null one), and the rows are, in order, a selection of
    the offshore buses of the listed countries that have an offshore shape:
    countries in the order of the configuration, buses in the order of the
    bus table, each row under its own country. *)
Theorem offshore_output_in_order inp out :
  offshore_output voronoi_partition_pts inp = Ok out →
  (∀ r, r ∈ out → is_Some (Region.geometry r)) ∧
  (λ r, (Region.country r, row_loc r)) <$> out
    `sublist_of`
    (filter (λ country, is_Some (offshore_shapes inp !! country)) (countries inp)
       ≫= λ country, pair country <$> offshore_locs (buses inp) country).
Proof.
  intros (frames & -> & Hframes)%offshore_output_exact. split.
  - intros r (df & Hr & Hdf)%list_elem_of_join.
    apply list_elem_of_lookup in Hdf as [k Hk].
    destruct (Forall2_lookup_r _ _ _ _ _ Hframes Hk) as (country & _ & shape & _ & Hframe).
    apply offshore_frame_Ok_inv in Hframe as (cells & _ & _ & ->).
    apply list_elem_of_filter in Hr as [_ Hr].
    apply list_elem_of_lookup in Hr as [i Hi].
    apply frame_rows_lookup in Hi as (l & g & s' & _ & Hg & _ & ->).
    apply list_lookup_fmap_Some in Hg as (cell & -> & _). by exists cell.
  - induction Hframes as [|country df cs frames (shape & _ & Hframe) _ IH]; simpl;
      [constructor | ].
    rewrite fmap_app. apply sublist_app; [ | exact IH].
    apply offshore_frame_Ok_inv in Hframe as (cells & _ & Hlen & ->).
    rewrite <- (frame_rows_country_loc (offshore_locs (buses inp) country)
                  (Some <$> cells) country
                  (SidName <$> (Loc.name <$> offshore_locs (buses inp) country)))
      by (by rewrite ?length_fmap).
    apply fmap_sublist, sublist_filter.
Qed.

Lemma Forall2_functional {A B} (R1 R2 : A → B → Prop) (xs : list A) (ys1 ys2 : list B) :
  (∀ x y1 y2, R1 x y1 → R2 x y2 → y1 = y2) →
  Forall2 R1 xs ys1 → Forall2 R2 xs ys2 → ys1 = ys2.
Proof.
  intros Hfun Hys1. revert ys2.
  induction Hys1 as [|x y1 xs ys1 Hy1 _ IH]; intros ys2 Hys2; inv Hys2; [done | ].
  f_equal; [by eapply Hfun | by apply IH].
Qed.

(** X8. The offshore output depends on the country list, the bus table and
    the offshore shapes only: two runs that agree on these and both reach
    the offshore output produce the same rows, whatever their mode, onshore
    shapes and administrative polygons. *)
Theorem offshore_output_depends_on inp1 inp2 out1 out2 :
  countries inp1 = countries inp2 →
  buses inp1 = buses inp2 →
  offshore_shapes inp1 = offshore_shapes inp2 →
  offshore_output voronoi_partition_pts inp1 = Ok out1 →
  offshore_output voronoi_partition_pts inp2 = Ok out2 →
  out1 = out2.
Proof.
  intros Hcountries Hbuses Hshapes
    (frames1 & -> & Hframes1)%offshore_output_exact
    (frames2 & -> & Hframes2)%offshore_output_exact.
  rewrite Hcountries, Hshapes in Hframes1. f_equal.
  eapply Forall2_functional; [ | exact Hframes1 | exact Hframes2].
  intros country df1 df2 (shape1 & Hshape1 & Hframe1) (shape2 & Hshape2 & Hframe2).
  rewrite Hshape2 in Hshape1. injection Hshape1 as <-.
  unfold offshore_frame in Hframe1, Hframe2. rewrite Hbuses in Hframe1. congruence.
Qed.

(** *** Writing a file, in general *)

(** What [save_to_geojson] does on any file system: the driver always finds
    the path without a file. *)
Lemma save_to_geojson_outcome (s : list (Region.t geometry Id)) (fn : string)
    (fs : gmap string file) :
  save_to_geojson file infer_schema to_file s fn fs
  = match infer_schema s with
    | Ok inferred =>
        match to_file s (<["geometry" := GeomType "Unknown"]> inferred) None with
        | Ok f => (<[fn := f]> fs, Ok ())
        | Raise e => (delete fn fs, Raise e)
        end
    | Raise e => (delete fn fs, Raise e)
    end.
Proof.
  unfold save_to_geojson, mbind, IO_bind, path_exists, unlink, pure, GeoDataFrame_to_file.
  destruct (fs !! fn) as [old|] eqn:Hold.
  - rewrite bool_decide_eq_true_2 by done.
    rewrite decide_True by (by rewrite Hold).
    destruct (infer_schema s) as [inferred|e]; [ | reflexivity].
    rewrite lookup_delete_eq.
    destruct (to_file s _ None) as [f|e]; [by rewrite insert_delete_eq | reflexivity].
  - rewrite bool_decide_eq_false_2 by (by intros [? ?]).
    unfold mret, IO_ret. rewrite (delete_id fs fn Hold).
    destruct (infer_schema s) as [inferred|e]; [ | reflexivity].
    rewrite Hold. reflexivity.
Qed.

(** X9. [save_to_geojson] on a path without a file: [os.unlink] is not
    called, so its [OSError] for a missing file cannot occur; on success the
    path holds what the driver writes, on a failure of the schema inference
    or of the driver the file system is left as it was, and the exception is
    theirs. *)
Theorem save_to_geojson_fresh_path (s : list (Region.t geometry Id)) (fn : string)
    (fs : gmap string file) :
  fs !! fn = None →
  save_to_geojson file infer_schema to_file s fn fs
  = match infer_schema s with
    | Ok inferred =>
        match to_file s (<["geometry" := GeomType "Unknown"]> inferred) None with
        | Ok f => (<[fn := f]> fs, Ok ())
        | Raise e => (fs, Raise e)
        end
    | Raise e => (fs, Raise e)
    end ∧
  unlink file fn fs = (fs, Raise OSError).
Proof.
  intros Hfresh. split.
  - rewrite save_to_geojson_outcome. by rewrite (delete_id fs fn Hfresh).
  - unfold unlink. rewrite decide_False; [done | ]. rewrite Hfresh. by intros [? ?].
Qed.

(** X10. Writing twice to a path leaves what the second write alone leaves:
    the outcome of the second [save_to_geojson] does not depend on whether
    the first one succeeded or on what it wrote. *)
Theorem save_to_geojson_last_write_wins (s1 s2 : list (Region.t geometry Id)) (fn : string)
    (fs : gmap string file) :
  save_to_geojson file infer_schema to_file s2 fn
    (save_to_geojson file infer_schema to_file s1 fn fs).1
  = save_to_geojson file infer_schema to_file s2 fn fs.
Proof.
  rewrite !save_to_geojson_outcome.
  assert (Hfirst :
    (match infer_schema s1 with
     | Ok inferred =>
         match to_file s1 (<["geometry" := GeomType "Unknown"]> inferred) None with
         | Ok f => (<[fn := f]> fs, Ok ())
         | Raise e => (delete fn fs, Raise e)
         end
     | Raise e => (delete fn fs, Raise e)
     end).1 = delete fn fs ∨
    ∃ f1, (match infer_schema s1 with
     | Ok inferred =>
         match to_file s1 (<["geometry" := GeomType "Unknown"]> inferred) None with
         | Ok f => (<[fn := f]> fs, Ok ())
         | Raise e => (delete fn fs, Raise e)
         end
     | Raise e => (delete fn fs, Raise e)
     end).1 = <[fn := f1]> fs).
  { destruct (infer_schema s1) as [inferred|e]; [ | by left].
    destruct (to_file s1 _ None) as [f|e]; [right; by exists f | by left]. }
  destruct Hfirst as [-> | [f1 ->]].
  - rewrite delete_delete_eq.
    destruct (infer_schema s2) as [inferred|e]; [ | reflexivity].
    destruct (to_file s2 _ None) as [f|e]; [by rewrite insert_delete_eq | reflexivity].
  - rewrite delete_insert_eq.
    destruct (infer_schema s2) as [inferred|e]; [ | reflexivity].
    destruct (to_file s2 _ None) as [f|e]; [by rewrite insert_insert_eq | reflexivity].
Qed.

Lemma save_to_geojson_other_path (s : list (Region.t geometry Id)) (fn fn' : string)
    (fs : gmap string file) :
  fn' ≠ fn →
  (save_to_geojson file infer_schema to_file s fn fs).1 !! fn' = fs !! fn'.
Proof.
  intros Hother. rewrite save_to_geojson_outcome.
  destruct (infer_schema s) as [inferred|e]; simpl.
  - destruct (to_file s _ None) as [f|e]; simpl.
    + by rewrite lookup_insert_ne.
    + by rewrite lookup_delete_ne.
  - by rewrite lookup_delete_ne.
Qed.

(** *** The whole run *)

Lemma main_unfold inp (fs : gmap string file) :
  main voronoi_partition_pts file infer_schema to_file inp fs
  = match country_loop voronoi_partition_pts inp with
    | Raise e => (fs, Raise e)
    | Ok acc =>
        match pd_concat acc.1 with
        | Raise e => (fs, Raise e)
        | Ok onshore =>
            match save_to_geojson file infer_schema to_file onshore (regions_onshore inp) fs with
            | (fs1, Raise e) => (fs1, Raise e)
            | (fs1, Ok _) =>
                match pd_concat acc.2 with
                | Raise e => (fs1, Raise e)
                | Ok offshore =>
                    save_to_geojson file infer_schema to_file offshore
                      (regions_offshore inp) fs1
                end
            end
        end
    end.
Proof.
  unfold main, mbind, IO_bind, pure.
  destruct (country_loop voronoi_partition_pts inp) as [acc|e]; [ | reflexivity].
  destruct (pd_concat acc.1) as [onshore|e]; [ | reflexivity].
  destruct (save_to_geojson file infer_schema to_file onshore (regions_onshore inp) fs)
    as [fs1 [[]|e]]; [ | reflexivity].
  destruct (pd_concat acc.2) as [offshore|e]; reflexivity.
Qed.

(** X11. Whatever its outcome, the run touches no path other than the two
    output paths. *)
Theorem main_touches_only_outputs inp (fs : gmap string file) (fn : string) :
  fn ≠ regions_onshore inp → fn ≠ regions_offshore inp →
  (main voronoi_partition_pts file infer_schema to_file inp fs).1 !! fn = fs !! fn.
Proof.
  intros Hon Hoff. rewrite main_unfold.
  destruct (country_loop voronoi_partition_pts inp) as [acc|e]; [ | reflexivity].
  destruct (pd_concat acc.1) as [onshore|e]; [ | reflexivity].
  pose proof (save_to_geojson_other_path onshore (regions_onshore inp) fn fs Hon) as Hfirst.
  destruct (save_to_geojson file infer_schema to_file onshore (regions_onshore inp) fs)
    as [fs1 [[]|e]]; simpl in Hfirst; [ | exact Hfirst].
  destruct (pd_concat acc.2) as [offshore|e]; [ | exact Hfirst].
  by rewrite save_to_geojson_other_path.
Qed.

(** X12. The run succeeds exactly when both outputs exist and the schema
    inference and the driver accept both; the file system it leaves is then
    the one before it with the onshore file at the onshore path and, written
    after it, the offshore file at the offshore path, each as the driver
    writes it on a path without a file. *)
Theorem main_succeeds_iff inp (fs fs' : gmap string file) :
  main voronoi_partition_pts file infer_schema to_file inp fs = (fs', Ok ()) ↔
  ∃ onshore offshore schema_on schema_off f_on f_off,
    onshore_output voronoi_partition_pts inp = Ok onshore ∧
    offshore_output voronoi_partition_pts inp = Ok offshore ∧
    infer_schema onshore = Ok schema_on ∧
    to_file onshore (<["geometry" := GeomType "Unknown"]> schema_on) None = Ok f_on ∧
    infer_schema offshore = Ok schema_off ∧
    to_file offshore (<["geometry" := GeomType "Unknown"]> schema_off) None = Ok f_off ∧
    fs' = <[regions_offshore inp := f_off]> (<[regions_onshore inp := f_on]> fs).
Proof.
  rewrite main_unfold. unfold onshore_output, offshore_output.
  destruct (country_loop voronoi_partition_pts inp) as [acc|e]; simpl.
  2:{ split; [discriminate | by intros (? & ? & ? & ? & ? & ? & ? & _)]. }
  destruct (pd_concat acc.1) as [onshore|e].
  2:{ split; [discriminate | by intros (? & ? & ? & ? & ? & ? & ? & _)]. }
  rewrite save_to_geojson_outcome.
  destruct (infer_schema onshore) as [schema_on|e] eqn:Hschema_on.
  2:{ split; [discriminate | ].
      intros (on & ? & ? & ? & ? & ? & [= <-] & _ & Hs & _). congruence. }
  destruct (to_file onshore _ None) as [f_on|e] eqn:Hf_on.
  2:{ split; [discriminate | ].
      intros (on & ? & s_on & ? & ? & ? & [= <-] & _ & Hs & Hf & _).
      rewrite Hschema_on in Hs. injection Hs as <-. congruence. }
  destruct (pd_concat acc.2) as [offshore|e].
  2:{ split; [discriminate | by intros (? & ? & ? & ? & ? & ? & _ & ? & _)]. }
  rewrite save_to_geojson_outcome.
  destruct (infer_schema offshore) as [schema_off|e] eqn:Hschema_off.
  2:{ split; [discriminate | ].
      intros (? & off & ? & ? & ? & ? & _ & [= <-] & _ & _ & Hs & _). congruence. }
  destruct (to_file offshore _ None) as [f_off|e] eqn:Hf_off.
  2:{ split; [discriminate | ].
      intros (? & off & ? & s_off & ? & ? & _ & [= <-] & _ & _ & Hs & Hf & _).
      rewrite Hschema_off in Hs. injection Hs as <-. congruence. }
  split.
  - intros [= <-]. exists onshore, offshore, schema_on, schema_off, f_on, f_off.
    split_and!; done.
  - intros (on & off & s_on & s_off & f_on' & f_off' &
            [= <-] & [= <-] & Hs1 & Hf1 & Hs2 & Hf2 & ->).
    rewrite Hschema_on in Hs1. injection Hs1 as <-.
    rewrite Hschema_off in Hs2. injection Hs2 as <-.
    rewrite Hf_on in Hf1. injection Hf1 as <-.
    rewrite Hf_off in Hf2. injection Hf2 as <-. reflexivity.
Qed.

(** X13. When no listed country has an offshore shape (in particular when no
    country is listed) the run cannot succeed: [pd.concat] of the empty
    offshore accumulator raises.  If the onshore output exists and is
    written, the run ends in that [ValueError] with the onshore file already
    in place. *)
Theorem main_without_offshore_shapes inp (fs : gmap string file) :
  (∀ country, country ∈ countries inp → offshore_shapes inp !! country = None) →
  (main voronoi_partition_pts file infer_schema to_file inp fs).2 ≠ Ok () ∧
  (∀ onshore inferred f,
     onshore_output voronoi_partition_pts inp = Ok onshore →
     infer_schema onshore = Ok inferred →
     to_file onshore (<["geometry" := GeomType "Unknown"]> inferred) None = Ok f →
     main voronoi_partition_pts file infer_schema to_file inp fs
     = (<[regions_onshore inp := f]> fs, Raise ValueError)).
Proof.
  intros Hnone.
  assert (Hempty : ∀ acc, country_loop voronoi_partition_pts inp = Ok acc → acc.2 = []).
  { intros acc (offshore_new & -> & Hoffs)%for_countries_offshore_exact.
    rewrite filter_none in Hoffs.
    - by inv Hoffs.
    - intros country Hlisted [shape Hshape]. rewrite (Hnone country Hlisted) in Hshape.
      discriminate. }
  rewrite main_unfold. unfold onshore_output.
  destruct (country_loop voronoi_partition_pts inp) as [acc|e]; simpl.
  2:{ split; [discriminate | by intros ? ? ? ?]. }
  rewrite (Hempty acc eq_refl). simpl.
  destruct (pd_concat acc.1) as [onshore|e]; simpl.
  2:{ split; [discriminate | by intros ? ? ? ?]. }
  rewrite save_to_geojson_outcome. split.
  - destruct (infer_schema onshore) as [inferred|e]; [ | discriminate].
    destruct (to_file onshore _ None) as [f|e]; discriminate.
  - intros onshore' inferred f [= <-] Hschema Hfile. by rewrite Hschema, Hfile.
Qed.

(** X14. Nothing is written unless the onshore output exists: when the
    country loop raises for any listed country, or the onshore accumulator
    cannot be concatenated, the run ends in that exception with the file
    system untouched, files already at the output paths included. *)
Theorem main_writes_nothing_without_onshore_output inp (fs : gmap string file) (e : exn) :
  onshore_output voronoi_partition_pts inp = Raise e →
  main voronoi_partition_pts file infer_schema to_file inp fs = (fs, Raise e).
Proof.
  rewrite main_unfold. unfold onshore_output.
  destruct (country_loop voronoi_partition_pts inp) as [acc|e']; simpl;
    [ | by intros [= ->]].
  destruct (pd_concat acc.1) as [onshore|e']; [discriminate | by intros [= ->]].
Qed.

(** *** The area filter *)

(** X15. The area filter is strict and drops undefined areas: no row of the
    offshore output has a cell of area exactly [1e-2], of area zero or of
    area NaN. *)
Theorem offshore_filter_strict inp out r :
  offshore_output voronoi_partition_pts inp = Ok out →
  r ∈ out →
  row_area r ≠ min_area ∧ row_area r ≠ 0%float ∧ row_area r ≠ nan.
Proof.
  intros (frames & -> & Hframes)%offshore_output_Ok_inv
         (df & Hr & Hdf)%list_elem_of_join.
  rewrite Forall_forall in Hframes.
  destruct (Hframes df Hdf) as (country & shape & _ & _ & Hframe).
  destruct (offshore_frame_rows voronoi_partition_pts inp country shape df r Hframe Hr)
    as (_ & _ & Harea & _).
  split_and!; intros Heq; rewrite Heq in Harea; vm_compute in Harea; discriminate.
Qed.

(** X16. No cell above the threshold is lost: when the run reaches the
    offshore output, every offshore bus of a listed country with an offshore
    shape whose cell (the cell at the bus's position in what the Voronoi
    routine returned) has area greater than [1e-2] has its row in the
    output, with that cell, the country and its own name as [shape_id]. *)
Theorem offshore_large_cells_kept inp out country (offshore_shape : geometry)
    (cells : list geometry) (i : nat) l (cell : geometry) :
  offshore_output voronoi_partition_pts inp = Ok out →
  country ∈ countries inp →
  offshore_shapes inp !! country = Some offshore_shape →
  voronoi_partition_pts (values (offshore_locs (buses inp) country)) offshore_shape
    = Ok cells →
  offshore_locs (buses inp) country !! i = Some l →
  cells !! i = Some cell →
  (min_area <? area cell)%float = true →
  Region.mk (Loc.name l) (Loc.x l) (Loc.y l) (Some cell) country (SidName (Loc.name l))
    ∈ out.
Proof.
  intros (frames & -> & Hframes)%offshore_output_exact
         Hlisted Hshape Hcells Hl Hcell Harea.
  assert (Hin : country ∈ filter (λ country, is_Some (offshore_shapes inp !! country))
                            (countries inp)).
  { apply list_elem_of_filter. split; [by rewrite Hshape | done]. }
  apply list_elem_of_lookup in Hin as [k Hk].
  destruct (Forall2_lookup_l _ _ _ _ _ Hframes Hk) as (df & Hdf & shape' & Hshape' & Hframe).
  rewrite Hshape in Hshape'. injection Hshape' as <-.
  apply list_elem_of_join. exists df. split; [ | by eapply list_elem_of_lookup_2].
  apply offshore_frame_Ok_inv in Hframe as (cells' & Hcells' & _ & ->).
  rewrite Hcells in Hcells'. injection Hcells' as <-.
  apply list_elem_of_filter. split; [exact Harea | ].
  apply list_elem_of_lookup. exists i. apply frame_rows_lookup.
  exists l, (Some cell), (SidName (Loc.name l)).
  split_and!; [done | by rewrite list_lookup_fmap, Hcell | | done].
  by rewrite !list_lookup_fmap, Hl.
Qed.

End FurtherProperties.

(** ** The further properties on the example data *)

(** X3 on the example. *)
Lemma get_nuts_shape_order_independent_witness :
  nuts_example ≡ₚ nuts_reordered ∧
  get_nuts_shape [in_A_only; in_A_and_B; in_no_polygon] nuts_example
  = get_nuts_shape [in_A_only; in_A_and_B; in_no_polygon] nuts_reordered.
Proof.
  assert (Hperm : nuts_example ≡ₚ nuts_reordered).
  { unfold nuts_example, nuts_reordered.
    etrans; [apply perm_swap | ].
    etrans; [apply perm_skip, perm_swap | ].
    apply perm_swap. }
  split; [exact Hperm | ].
  exact (get_nuts_shape_order_independent nuts_example nuts_reordered _ Hperm).
Defined.

(** X4 on the example: the first bus of "DE" lies in polygon "A" only. *)
Lemma found_bus_gets_polygon_and_label_witness :
  ∃ df,
    onshore_frame whole_outline_cells (inputs_example true) "DE" = Ok df ∧
    onshore_locs (buses (inputs_example true)) "DE" !! 0 = Some in_A_only ∧
    selection nuts_example (coords_point in_A_only) = [("A", box_A)] ∧
    df !! 0 = Some (Region.mk "b1" 1 1 (Some box_A) "DE" (SidLabel "A")).
Proof.
  eexists. split; [vm_compute; reflexivity | ].
  split; [reflexivity | ]. split; [by vm_compute | ].
  apply (found_bus_gets_polygon_and_label whole_outline_cells (inputs_example true) "DE"
           _ 0 in_A_only "A" box_A);
    [reflexivity | vm_compute; reflexivity | reflexivity | by vm_compute].
Defined.

(** X5 on the example: two buses of "DE", two cells. *)
Lemma voronoi_frame_by_position_witness :
  nuts_clustering (inputs_example false) = false ∧
  country_shapes (inputs_example false) !! "DE" = Some land_DE ∧
  ∃ df, onshore_frame whole_outline_cells (inputs_example false) "DE" = Ok df ∧
        length df = 2 ∧
        df !! 1 = Some (Region.mk "b2" 7 7 (Some land_DE) "DE" (SidInt (-1))).
Proof.
  assert (Hshape : country_shapes (inputs_example false) !! "DE" = Some land_DE)
    by (vm_compute; reflexivity).
  pose proof (voronoi_frame_by_position whole_outline_cells (inputs_example false) "DE"
                land_DE eq_refl Hshape) as Hframe.
  cbv [whole_outline_cells] in Hframe. destruct Hframe as [_ Hok].
  destruct Hok as (df & Hdf & Hlen & Hrows); [vm_compute; reflexivity | ].
  split_and!; [reflexivity | exact Hshape | ].
  exists df. split_and!; [exact Hdf | exact Hlen | ].
  apply (Hrows 1 in_A_and_B land_DE); reflexivity.
Defined.

(** X6 on the example. *)
Lemma onshore_output_in_order_witness :
  ∃ out,
    onshore_output whole_outline_cells (inputs_example true) = Ok out ∧
    (λ r, (Region.country r, row_loc r)) <$> out
    = [("DE", in_A_only); ("DE", in_A_and_B); ("FR", in_no_polygon)].
Proof.
  eexists. split; [vm_compute; reflexivity | ].
  rewrite (onshore_output_in_order whole_outline_cells (inputs_example true));
    [reflexivity | vm_compute; reflexivity].
Defined.

(** X7 on the example: the offshore bus of "FR" has a cell below the
    threshold and is left out. *)
Lemma offshore_output_in_order_witness :
  offshore_output whole_outline_cells (inputs_example false) = Ok [offshore_row_DE] ∧
  (∀ r, r ∈ [offshore_row_DE] → is_Some (Region.geometry r)) ∧
  [("DE", in_A_and_B)] `sublist_of` [("DE", in_A_and_B); ("FR", in_no_polygon)].
Proof.
  assert (Hout : offshore_output whole_outline_cells (inputs_example false)
                 = Ok [offshore_row_DE]) by (vm_compute; reflexivity).
  split; [exact Hout | ].
  exact (offshore_output_in_order whole_outline_cells (inputs_example false) _ Hout).
Defined.

(** X8 on the example: the two modes give the same offshore output. *)
Lemma offshore_output_depends_on_witness :
  offshore_output whole_outline_cells (inputs_example true) = Ok [offshore_row_DE] ∧
  offshore_output whole_outline_cells (inputs_example false) = Ok [offshore_row_DE].
Proof.
  assert (Hout : offshore_output whole_outline_cells (inputs_example false)
                 = Ok [offshore_row_DE]) by (vm_compute; reflexivity).
  split; [ | exact Hout].
  destruct (offshore_output whole_outline_cells (inputs_example true)) as [out|e] eqn:Hout';
    [ | vm_compute in Hout'; discriminate].
  f_equal.
  exact (offshore_output_depends_on whole_outline_cells (inputs_example true)
           (inputs_example false) out [offshore_row_DE] eq_refl eq_refl eq_refl Hout' Hout).
Defined.

(** X9 on the example. *)
Lemma save_to_geojson_fresh_path_witness :
  (∅ : gmap string (gmap string SchemaValue * list (Region.t Box string)))
    !! "resources/regions_onshore.geojson" = None ∧
  save_to_geojson _ infer_polygon_schema appending_driver new_rows
    "resources/regions_onshore.geojson" ∅
  = ({[ "resources/regions_onshore.geojson" :=
          (<["geometry" := GeomType "Unknown"]> polygon_schema, new_rows) ]}, Ok ()) ∧
  unlink (gmap string SchemaValue * list (Region.t Box string))
    "resources/regions_onshore.geojson" ∅ = (∅, Raise OSError).
Proof.
  split; [reflexivity | ].
  exact (save_to_geojson_fresh_path _ infer_polygon_schema appending_driver new_rows
           "resources/regions_onshore.geojson" ∅ eq_refl).
Defined.

(** X11 on the example: a file elsewhere survives the run. *)
Lemma main_touches_only_outputs_witness :
  "notes.txt" ≠ regions_onshore (inputs_example false) ∧
  "notes.txt" ≠ regions_offshore (inputs_example false) ∧
  (main whole_outline_cells _ infer_polygon_schema appending_driver (inputs_example false)
     {[ "notes.txt" := (polygon_schema, old_rows) ]}).1 !! "notes.txt"
  = Some (polygon_schema, old_rows).
Proof.
  assert (Hon : "notes.txt" ≠ regions_onshore (inputs_example false)) by discriminate.
  assert (Hoff : "notes.txt" ≠ regions_offshore (inputs_example false)) by discriminate.
  split_and!; [exact Hon | exact Hoff | ].
  rewrite (main_touches_only_outputs whole_outline_cells _ infer_polygon_schema
             appending_driver (inputs_example false) _ "notes.txt" Hon Hoff).
  by vm_compute.
Defined.

(** X12 on the example. *)
Lemma main_succeeds_iff_witness :
  ∃ onshore,
    onshore_output whole_outline_cells (inputs_example false) = Ok onshore ∧
    main whole_outline_cells _ infer_polygon_schema appending_driver (inputs_example false) ∅
    = (<[ "resources/regions_offshore.geojson" :=
            (<["geometry" := GeomType "Unknown"]> polygon_schema, [offshore_row_DE]) ]>
         (<[ "resources/regions_onshore.geojson" :=
               (<["geometry" := GeomType "Unknown"]> polygon_schema, onshore) ]> ∅),
       Ok ()).
Proof.
  eexists. split; [vm_compute; reflexivity | ].
  apply (main_succeeds_iff whole_outline_cells _ infer_polygon_schema appending_driver
           (inputs_example false)).
  do 6 eexists.
  split_and!; [vm_compute; reflexivity | vm_compute; reflexivity
              | reflexivity | reflexivity | reflexivity | reflexivity | reflexivity].
Defined.

(** X13 on the example: the onshore file is written, then the run raises. *)
Lemma main_without_offshore_shapes_witness :
  (∀ country, country ∈ countries inputs_without_offshore →
     offshore_shapes inputs_without_offshore !! country = None) ∧
  ∃ onshore,
    onshore_output whole_outline_cells inputs_without_offshore = Ok onshore ∧
    main whole_outline_cells _ infer_polygon_schema appending_driver
      inputs_without_offshore ∅
    = (<[ "resources/regions_onshore.geojson" :=
            (<["geometry" := GeomType "Unknown"]> polygon_schema, onshore) ]> ∅,
       Raise ValueError).
Proof.
  assert (Hnone : ∀ country, country ∈ countries inputs_without_offshore →
            offshore_shapes inputs_without_offshore !! country = None)
    by (intros country _; apply lookup_empty).
  split; [exact Hnone | ].
  destruct (main_without_offshore_shapes whole_outline_cells _ infer_polygon_schema
              appending_driver inputs_without_offshore ∅ Hnone) as [_ Hwritten].
  eexists. split; [vm_compute; reflexivity | ].
  eapply Hwritten; [vm_compute; reflexivity | reflexivity | reflexivity].
Defined.

(** X14 on the example: "XX" has no onshore shape, the old file stays. *)
Lemma main_writes_nothing_without_onshore_output_witness :
  onshore_output whole_outline_cells inputs_country_without_shape = Raise (KeyError "XX") ∧
  main whole_outline_cells _ infer_polygon_schema appending_driver
    inputs_country_without_shape
    {[ "resources/regions_onshore.geojson" := (polygon_schema, old_rows) ]}
  = ({[ "resources/regions_onshore.geojson" := (polygon_schema, old_rows) ]},
     Raise (KeyError "XX")).
Proof.
  assert (Hraise : onshore_output whole_outline_cells inputs_country_without_shape
                   = Raise (KeyError "XX")) by (vm_compute; reflexivity).
  split; [exact Hraise | ].
  exact (main_writes_nothing_without_onshore_output whole_outline_cells _
           infer_polygon_schema appending_driver inputs_country_without_shape _ _ Hraise).
Defined.

(** X15 on the example. *)
Lemma offshore_filter_strict_witness :
  offshore_output whole_outline_cells (inputs_example false) = Ok [offshore_row_DE] ∧
  offshore_row_DE ∈ [offshore_row_DE] ∧
  row_area offshore_row_DE ≠ min_area ∧
  row_area offshore_row_DE ≠ 0%float ∧
  row_area offshore_row_DE ≠ nan.
Proof.
  assert (Hout : offshore_output whole_outline_cells (inputs_example false)
                 = Ok [offshore_row_DE]) by (vm_compute; reflexivity).
  assert (Hrow : offshore_row_DE ∈ [offshore_row_DE]) by left.
  split_and!; [exact Hout | exact Hrow | | | ];
    apply (offshore_filter_strict whole_outline_cells (inputs_example false) _ _ Hout Hrow).
Defined.

(** X16 on the example. *)
Lemma offshore_large_cells_kept_witness :
  offshore_output whole_outline_cells (inputs_example false) = Ok [offshore_row_DE] ∧
  "DE" ∈ countries (inputs_example false) ∧
  offshore_shapes (inputs_example false) !! "DE" = Some sea_DE ∧
  whole_outline_cells (values (offshore_locs (buses (inputs_example false)) "DE")) sea_DE
    = Ok [sea_DE] ∧
  offshore_locs (buses (inputs_example false)) "DE" !! 0 = Some in_A_and_B ∧
  (min_area <? area sea_DE)%float = true ∧
  offshore_row_DE ∈ [offshore_row_DE].
Proof.
  assert (Hout : offshore_output whole_outline_cells (inputs_example false)
                 = Ok [offshore_row_DE]) by (vm_compute; reflexivity).
  assert (Hlisted : "DE" ∈ countries (inputs_example false)) by by_evaluation.
  assert (Hshape : offshore_shapes (inputs_example false) !! "DE" = Some sea_DE)
    by (vm_compute; reflexivity).
  assert (Harea : (min_area <? area sea_DE)%float = true) by (vm_compute; reflexivity).
  split_and!; [exact Hout | exact Hlisted | exact Hshape | reflexivity | reflexivity
              | exact Harea | ].
  exact (offshore_large_cells_kept whole_outline_cells (inputs_example false) _ "DE" sea_DE
           [sea_DE] 0 in_A_and_B sea_DE Hout Hlisted Hshape eq_refl eq_refl eq_refl Harea).
Defined.
